(** * A shallow embedding of the web crawler (web_scraper.py, search.py,
      search_and_scrape.py) and the properties of its fetch / extract /
      cache pipeline.

    Python values are modelled as follows.
    - [str] is [string]; a character is a code point below 256.
    - a [dict] whose keys are fixed by the code (a scraped page, a search
      result, a combined record) is a record; a [dict] used as a map
      ([last_request_time], [scraped_data], the cache, a raw search
      result) is a [gmap string _]; a [set] is a [gset].
    - [time.time()] reads a logical clock, an integer number of seconds
      that only moves forward: [time.sleep d] advances it by [d], a
      network exchange by the latency the environment reports.
    - the network, robots.txt, the headless browser and the search
      provider are oracles indexed by the number of exchanges made so far,
      so that every sequence of outcomes can be played.
    - an exception is a value of [exn]; a computation that may raise
      returns a [result].
    - [urlparse] and [urljoin] are functions of the environment that may
      raise (they raise [ValueError] on a URL such as [http://[bad]);
      [BeautifulSoup(html, "html.parser")] is a function of the
      environment that always returns a tree.
    - [RobotFileParser.read] and [can_fetch] are those of
      [urllib.robotparser]: an HTTP error status on robots.txt is not an
      exception but a verdict.
    - [diskcache.Cache] is taken as a map from queries to result lists,
      without eviction or expiry: [query in cache] and [cache[query]]
      read it, [cache[query] = results] writes it. *)

From Stdlib Require Import ZArith Lia List Ascii String.
From stdpp Require Import base gmap sets list strings.

Open Scope string_scope.
Open Scope Z_scope.
Set Warnings "-register-all".

(** ** Python string operations *)

Module PyStr.

(** [str.isspace] on one code point below 256. *)
Definition is_space (c : ascii) : bool :=
  let n := nat_of_ascii c in
  ((9 <=? n) && (n <=? 13))%nat || ((28 <=? n) && (n <=? 32))%nat
  || (n =? 133)%nat || (n =? 160)%nat.

(** [s[:n]] *)
Fixpoint take (n : nat) (s : string) : string :=
  match n, s with
  | O, _ => ""
  | S _, EmptyString => ""
  | S n', String c s' => String c (take n' s')
  end.

Fixpoint rev_acc (s acc : string) : string :=
  match s with
  | EmptyString => acc
  | String c s' => rev_acc s' (String c acc)
  end.

Definition rev (s : string) : string := rev_acc s "".

Fixpoint lstrip (s : string) : string :=
  match s with
  | EmptyString => ""
  | String c s' => if is_space c then lstrip s' else s
  end.

(** [s.strip()] *)
Definition strip (s : string) : string := rev (lstrip (rev (lstrip s))).

(** [sep.join(l)] *)
Fixpoint join (sep : string) (l : list string) : string :=
  match l with
  | [] => ""
  | [x] => x
  | x :: rest => x ++ sep ++ join sep rest
  end.

(** [s.startswith(p)] *)
Fixpoint starts_with (p s : string) : bool :=
  match p, s with
  | EmptyString, _ => true
  | String _ _, EmptyString => false
  | String a p', String b s' => if Ascii.eqb a b then starts_with p' s' else false
  end.

(** [sub in s] *)
Fixpoint contains (sub s : string) : bool :=
  starts_with sub s ||
  match s with
  | EmptyString => false
  | String _ s' => contains sub s'
  end.

(** [s.split()]: the maximal runs of non-space characters, in order.
    [cur] is the run being read, reversed. *)
Fixpoint split_ws_go (cur : string) (s : string) : list string :=
  match s with
  | EmptyString => match cur with EmptyString => [] | _ => [rev cur] end
  | String c s' =>
      if is_space c then
        match cur with
        | EmptyString => split_ws_go "" s'
        | _ => rev cur :: split_ws_go "" s'
        end
      else split_ws_go (String c cur) s'
  end.

Definition split_ws (s : string) : list string := split_ws_go "" s.

(** [s.split(sep)] for a non-empty [sep]: cut at the leftmost occurrences
    of [sep], which do not overlap. [skip] counts the characters of an
    occurrence still to be passed over; [cur] is the piece being read,
    reversed. *)
Fixpoint split_on_go (sep : string) (skip : nat) (cur : string) (s : string)
  : list string :=
  match s with
  | EmptyString => [rev cur]
  | String c s' =>
      match skip with
      | S k => split_on_go sep k cur s'
      | O =>
          if starts_with sep s
          then rev cur :: split_on_go sep (String.length sep - 1) "" s'
          else split_on_go sep O (String c cur) s'
      end
  end.

Definition split_on (sep s : string) : list string := split_on_go sep 0 "" s.

(** [len(s.split())] *)
Definition word_count (s : string) : Z := Z.of_nat (length (split_ws s)).

End PyStr.

(** ** The parsed document (BeautifulSoup's tree) *)

Module Dom.

(** A page element: a string of text, or a tag with its attributes and
    contents. The document itself is a tag named [[document]]. *)
Inductive node :=
| Text (s : string)
| Elem (name : string) (attrs : gmap string string) (contents : list node).

Definition document (contents : list node) : node := Elem "[document]" ∅ contents.

(** [tag.get(key)] *)
Definition attr (key : string) (n : node) : option string :=
  match n with Text _ => None | Elem _ a _ => a !! key end.

Definition has_name (nm : string) (n : node) : bool :=
  match n with Text _ => false | Elem nm' _ _ => String.eqb nm nm' end.

Definition has_name_in (names : list string) (n : node) : bool :=
  existsb (fun nm => has_name nm n) names.

(** [tag.descendants]: every node below [n], in document order. *)
Fixpoint descendants (n : node) : list node :=
  match n with
  | Text _ => []
  | Elem _ _ kids =>
      (fix go (l : list node) : list node :=
         match l with
         | [] => []
         | k :: l' => k :: descendants k ++ go l'
         end) kids
  end.

(** [tag.find_all(name)] and [tag.find(name)] *)
Definition find_all (nm : string) (n : node) : list node :=
  List.filter (has_name nm) (descendants n).

Definition find (nm : string) (n : node) : option node :=
  head (find_all nm n).

(** [tag.find_all("a", href=True)] *)
Definition find_all_with_attr (nm key : string) (n : node) : list node :=
  List.filter (fun k => has_name nm k && bool_decide (is_Some (attr key k)))
    (descendants n).

(** [tag.find(name, attrs={key: value})] *)
Definition find_by_attr (nm key value : string) (n : node) : option node :=
  head (List.filter
          (fun k => has_name nm k && bool_decide (attr key k = Some value))
          (descendants n)).

(** [tag.get_text()]: the text below [n], concatenated. *)
Fixpoint get_text (n : node) : string :=
  match n with
  | Text s => s
  | Elem _ _ kids =>
      (fix go (l : list node) : string :=
         match l with
         | [] => ""
         | k :: l' => get_text k ++ go l'
         end) kids
  end.

(** [tag.string]: the single string below [n], if there is exactly one
    chain of only children leading to it; Python's [None] otherwise. *)
Fixpoint string_of (n : node) : option string :=
  match n with
  | Text s => Some s
  | Elem _ _ [k] => string_of k
  | Elem _ _ _ => None
  end.

(** [for element in soup(names): element.decompose()]: every tag whose
    name is listed is cut out of the tree, with all it contains. *)
Fixpoint decompose (names : list string) (n : node) : node :=
  match n with
  | Text s => Text s
  | Elem nm a kids =>
      Elem nm a
        ((fix go (l : list node) : list node :=
            match l with
            | [] => []
            | k :: l' =>
                if has_name_in names k then go l'
                else decompose names k :: go l'
            end) kids)
  end.

End Dom.

(** ** Exceptions and results *)

(** The exceptions the code can meet; all are subclasses of [Exception],
    only the first is a [requests.RequestException]. *)
Inductive exn :=
| RequestException (msg : string)
| KeyError (key : string)
| ValueError (msg : string)
| URLError (msg : string)
| PlaywrightError (msg : string)
| OtherException (msg : string).

Definition is_request_exception (e : exn) : bool :=
  match e with RequestException _ => true | _ => false end.

Inductive result (A : Type) :=
| Ok (a : A)
| Raise (e : exn).
Arguments Ok {A} a.
Arguments Raise {A} e.

(** ** Records *)

(** The dictionary [scrape_page] returns. Its keys [content], [links] and
    [title] are always there; [description] and [keywords] are [None] when
    the key is absent. [page_title = None] is Python's [None]. *)
Record ScrapedPage := {
  page_title : option string;
  page_description : option string;
  page_keywords : option string;
  content : string;
  links : list string
}.

(** One result of [SearchModule.search]. *)
Record SearchResult := {
  title : string;
  link : string;
  snippet : string
}.

(** One entry of the list [search_and_scrape] returns. *)
Record CombinedRecord := {
  c_title : string;
  c_snippet : string;
  c_link : string;
  scraped_content : string;
  word_count : Z;
  source : string;
  scraped_links : list string
}.

(** The configuration [WebScraper.__init__] stores. *)
Record WebScraper := {
  user_agent : string;
  rate_limit : Z;
  timeout : Z;
  max_retries : Z;
  summarize_content : bool;
  enable_js : bool
}.

Definition default_user_agent : string :=
  "Mozilla/5.0 (Windows NT 10.0; Win64; x64) AppleWebKit/537.36 (KHTML, like Gecko) Chrome/114.0.0.0 Safari/537.36".

(** [WebScraper(...)], given whether Playwright could be imported. *)
Definition new_WebScraper (playwright_installed : bool)
    (ua : string) (rl tmo retries : Z) (js summarize : bool) : WebScraper :=
  {| user_agent := ua; rate_limit := rl; timeout := tmo; max_retries := retries;
     summarize_content := summarize; enable_js := js && playwright_installed |}.

(** [WebScraper()] *)
Definition default_WebScraper (playwright_installed : bool) : WebScraper :=
  new_WebScraper playwright_installed default_user_agent 1 10 3 false true.

(** ** The environment *)

(** What [requests.get] does with a URL: a response with its status code
    and body, or an exception. *)
Inductive http_outcome :=
| HttpResponse (status : Z) (text : string)
| HttpRaise (e : exn).

(** What asking for a site's robots.txt gives [RobotFileParser]: an
    exception that leaves [read] or [can_fetch] (the site cannot be
    reached, the file cannot be decoded), an HTTP error status, which
    [read] handles itself, or a file, whose rules give a verdict for a
    user agent and a URL. *)
Inductive robots_outcome :=
| RobotsRaise (e : exn)
| RobotsHttpError (code : Z)
| RobotsRules (allows : string -> string -> bool).

(** [rp.read(); rp.can_fetch(useragent, url)]. On an HTTP error, [read]
    sets [disallow_all] for 401 and 403, [allow_all] for the other
    statuses from 400 to 499, and nothing otherwise; [can_fetch] then
    answers [False], [True], and [False] (the file was never read). *)
Definition robot_file_parser (o : robots_outcome) (useragent url : string) : result bool :=
  match o with
  | RobotsRaise e => Raise e
  | RobotsHttpError code =>
      Ok (if (code =? 401) || (code =? 403) then false
          else (400 <=? code) && (code <? 500))
  | RobotsRules allows => Ok (allows useragent url)
  end.

(** What [urlparse] returns, as far as the code reads it. *)
Record ParseResult := {
  scheme : string;
  netloc : string
}.

(** What [urlparse] and [urljoin] do with a URL: they return, or they
    raise a [ValueError] with a message. *)
Inductive url_outcome (A : Type) :=
| Valid (a : A)
| Invalid (msg : string).
Arguments Valid {A} a.
Arguments Invalid {A} msg.

Definition url_result {A} (o : url_outcome A) : result A :=
  match o with
  | Valid a => Ok a
  | Invalid msg => Raise (ValueError msg)
  end.

(** What the headless browser does: it fails to launch (outside the
    [try]), fails while loading the page (inside the [try]), or renders
    the page. *)
Inductive browser_outcome :=
| BrowserLaunchRaise (e : exn)
| BrowserRaise (e : exn)
| BrowserContent (html : string).

(** The library functions and the outside world. Each oracle is asked with
    the number of exchanges made before, and answers with an outcome and
    the seconds the exchange took. *)
Record Env := {
  parse_html : string -> Dom.node;
  urljoin : string -> string -> url_outcome string;
  urlparse : string -> url_outcome ParseResult;
  str_lower : string -> string;
  http_get : nat -> string -> http_outcome * nat;
  robots_txt : nat -> string -> robots_outcome * nat;
  browser : nat -> string -> browser_outcome * nat;
  ddgs_text : nat -> string -> string -> Z -> result (list (gmap string string)) * nat
}.

Inductive log_level := Info | Warning | Error | Console.

(** The two places that call [time.sleep]: the rate limiter and the
    backoff after a failed attempt. *)
Inductive sleep_site := RateLimitWait | Backoff.

(** What the program does that can be seen from outside, newest first. *)
Inductive event :=
| ESleep (site : sleep_site) (d : Z)
| EStamp (domain : string) (t : Z)
| EGet (url : string) (t : Z)
| ERobots (robots_url : string) (t : Z)
| EBrowser (url : string) (t : Z)
| ESearch (query : string)
| ELog (lvl : log_level) (subject : string).

(** The mutable state: the clock, the number of exchanges with the outside
    made so far, [WebScraper.last_request_time], [SearchAndScrape.cache]
    and the events so far. *)
Record world := {
  clock : Z;
  exchanges : nat;
  last_request_time : gmap string Z;
  cache : gmap string (list CombinedRecord);
  trace : list event
}.

Definition new_world (t0 : Z) : world :=
  {| clock := t0; exchanges := 0; last_request_time := ∅; cache := ∅; trace := [] |}.

(** ** Computations: state and exceptions *)

Definition M (A : Type) : Type := world -> result A * world.

Definition ret {A} (a : A) : M A := fun w => (Ok a, w).

Definition raise {A} (e : exn) : M A := fun w => (Raise e, w).

(** A call that returns or raises and does nothing else. *)
Definition lift {A} (r : result A) : M A := fun w => (r, w).

Definition bind {A B} (m : M A) (k : A -> M B) : M B :=
  fun w =>
    match m w with
    | (Ok a, w') => k a w'
    | (Raise e, w') => (Raise e, w')
    end.

(** [try: m  except <class> as e: h e], for the exceptions [catches] picks. *)
Definition try_except {A} (m : M A) (catches : exn -> bool) (h : exn -> M A) : M A :=
  fun w =>
    match m w with
    | (Ok a, w') => (Ok a, w')
    | (Raise e, w') => if catches e then h e w' else (Raise e, w')
    end.

Declare Scope m_scope.
Delimit Scope m_scope with M.
Notation "x <- m ;; k" := (bind m (fun x => k))
  (at level 100, m at next level, right associativity) : m_scope.
Notation "m ;;; k" := (bind m (fun _ => k))
  (at level 100, right associativity) : m_scope.
Open Scope m_scope.

Definition emit (e : event) : M unit :=
  fun w => (Ok tt, {| clock := clock w; exchanges := exchanges w;
                      last_request_time := last_request_time w;
                      cache := cache w; trace := e :: trace w |}).

Definition log (lvl : log_level) (subject : string) : M unit :=
  emit (ELog lvl subject).

(** [time.time()] *)
Definition time_time : M Z := fun w => (Ok (clock w), w).

Definition advance (d : Z) : M unit :=
  fun w => (Ok tt, {| clock := clock w + d; exchanges := exchanges w;
                      last_request_time := last_request_time w;
                      cache := cache w; trace := trace w |}).

(** [time.sleep(d)], called from [site]; both sites pass a positive [d]. *)
Definition time_sleep (site : sleep_site) (d : Z) : M unit :=
  emit (ESleep site d) ;;; advance (Z.max 0 d).

(** One exchange with the outside: the counter moves on and the clock
    advances by the latency. *)
Definition exchange {A} (oracle : nat -> A * nat) : M A :=
  fun w =>
    let '(a, latency) := oracle (exchanges w) in
    (Ok a, {| clock := clock w + Z.of_nat latency; exchanges := S (exchanges w);
              last_request_time := last_request_time w;
              cache := cache w; trace := trace w |}).

Definition get_last_request_time : M (gmap string Z) :=
  fun w => (Ok (last_request_time w), w).

(** [self.last_request_time[domain] = t] *)
Definition set_last_request_time (domain : string) (t : Z) : M unit :=
  fun w => (Ok tt, {| clock := clock w; exchanges := exchanges w;
                      last_request_time := <[domain := t]> (last_request_time w);
                      cache := cache w; trace := EStamp domain t :: trace w |}).

Definition get_cache : M (gmap string (list CombinedRecord)) :=
  fun w => (Ok (cache w), w).

(** [self.cache[query] if query in self.cache else None] *)
Definition cache_get (query : string) : M (option (list CombinedRecord)) :=
  c <- get_cache ;; ret (c !! query).

(** [self.cache[query] = results] *)
Definition cache_put (query : string) (results : list CombinedRecord) : M unit :=
  fun w => (Ok tt, {| clock := clock w; exchanges := exchanges w;
                      last_request_time := last_request_time w;
                      cache := <[query := results]> (cache w); trace := trace w |}).

(** ** web_scraper.py *)

Section WebScraperMethods.

Context (E : Env) (self : WebScraper).

(** [f"{parsed_url.scheme}://{parsed_url.netloc}/robots.txt"] *)
Definition robots_url (parsed_url : ParseResult) : string :=
  scheme parsed_url ++ "://" ++ netloc parsed_url ++ "/robots.txt".

(** [WebScraper.can_fetch]: the URL is parsed before the [try], robots.txt
    is read and asked inside it. *)
Definition can_fetch (url : string) : M bool :=
  parsed_url <- lift (url_result (urlparse E url)) ;;
  try_except
    (t <- time_time ;;
     emit (ERobots (robots_url parsed_url) t) ;;;
     o <- exchange (fun n => robots_txt E n (robots_url parsed_url)) ;;
     lift (robot_file_parser o (user_agent self) url))
    (fun _ => true)
    (fun _ => log Warning url ;;; ret true).

(** [WebScraper.respect_rate_limit] *)
Definition respect_rate_limit (url : string) : M unit :=
  parsed_url <- lift (url_result (urlparse E url)) ;;
  let domain := netloc parsed_url in
  current_time <- time_time ;;
  last <- get_last_request_time ;;
  match last !! domain with
  | Some t =>
      let elapsed_time := current_time - t in
      if elapsed_time <? rate_limit self
      then time_sleep RateLimitWait (rate_limit self - elapsed_time)
      else ret tt
  | None => ret tt
  end ;;;
  now <- time_time ;;
  set_last_request_time domain now.

(** [response.raise_for_status()] *)
Definition raise_for_status (status : Z) : M unit :=
  if (400 <=? status) && (status <? 600)
  then raise (RequestException "HTTPError")
  else ret tt.

(** [response = requests.get(url, ...); response.raise_for_status();
    response.text] *)
Definition request (url : string) : M string :=
  t <- time_time ;;
  emit (EGet url t) ;;;
  o <- exchange (fun n => http_get E n url) ;;
  match o with
  | HttpRaise e => raise e
  | HttpResponse status text => raise_for_status status ;;; ret text
  end.

(** The body of the [try] in [fetch_page]: one attempt. *)
Definition fetch_attempt (url : string) : M string :=
  respect_rate_limit url ;;;
  request url.

(** The loop of [fetch_page], from attempt number [attempt] with
    [remaining] attempts to go. *)
Fixpoint fetch_page_loop (url : string) (attempt remaining : nat) : M (option string) :=
  match remaining with
  | O => log Error url ;;; ret None
  | S remaining' =>
      try_except
        (text <- fetch_attempt url ;; ret (Some text))
        is_request_exception
        (fun _ =>
           log Warning url ;;;
           time_sleep Backoff (2 ^ Z.of_nat attempt) ;;;
           fetch_page_loop url (S attempt) remaining')
  end.

(** [WebScraper.fetch_page] *)
Definition fetch_page (url : string) : M (option string) :=
  fetch_page_loop url 0 (Z.to_nat (max_retries self)).

(** [WebScraper.fetch_js_page] *)
Definition fetch_js_page (url : string) : M (option string) :=
  if negb (enable_js self) then
    log Warning "JavaScript rendering is disabled." ;;; ret None
  else
    t <- time_time ;;
    emit (EBrowser url t) ;;;
    o <- exchange (fun n => browser E n url) ;;
    match o with
    | BrowserLaunchRaise e => raise e
    | BrowserRaise _ => log Error url ;;; ret None
    | BrowserContent html => ret (Some html)
    end.

(** The dictionary [extract_metadata] returns. *)
Record Metadata := {
  md_title : option string;
  md_description : string;
  md_keywords : string
}.

(** [soup.find("meta", attrs={"name": nm})["content"] if ... else default] *)
Definition meta_content (soup : Dom.node) (nm default : string) : result string :=
  match Dom.find_by_attr "meta" "name" nm soup with
  | Some m =>
      match Dom.attr "content" m with
      | Some c => Ok c
      | None => Raise (KeyError "content")
      end
  | None => Ok default
  end.

(** [WebScraper.extract_metadata] *)
Definition extract_metadata (soup : Dom.node) : result Metadata :=
  let t := match Dom.find "title" soup with
           | Some tag => Dom.string_of tag
           | None => Some "No Title"
           end in
  match meta_content soup "description" "No Description" with
  | Raise e => Raise e
  | Ok d =>
      match meta_content soup "keywords" "No Keywords" with
      | Raise e => Raise e
      | Ok k => Ok {| md_title := t; md_description := d; md_keywords := k |}
      end
  end.

(** [WebScraper.summarize_text] *)
Definition summarize_text (text : string) : string :=
  let sentences := PyStr.split_on ". " text in
  if (3 <? length sentences)%nat
  then PyStr.join ". " (firstn 3 sentences) ++ "..."
  else text.

(** [soup] after the boilerplate elements are cut out. *)
Definition cleaned_soup (html : string) : Dom.node :=
  Dom.decompose ["script"; "style"; "nav"; "footer"; "header"] (parse_html E html).

(** [main_content] of [extract_content] *)
Definition main_content (soup : Dom.node) : Dom.node :=
  match Dom.find "main" soup with
  | Some m => m
  | None =>
      match Dom.find "article" soup with
      | Some m => m
      | None =>
          match Dom.find "section" soup with
          | Some m => m
          | None =>
              match Dom.find "div" soup with
              | Some m => m
              | None => soup
              end
          end
      end
  end.

(** [" ".join(p.get_text().strip() for p in paragraphs)[:2400]] *)
Definition paragraph_text (soup : Dom.node) : string :=
  PyStr.take 2400
    (PyStr.join " "
       (map (fun p => PyStr.strip (Dom.get_text p))
          (Dom.find_all "p" (main_content soup)))).

(** [[urljoin(url, href) for href in hrefs]]: the first call that raises
    ends the comprehension. *)
Fixpoint urljoin_all (url : string) (hrefs : list string) : result (list string) :=
  match hrefs with
  | [] => Ok []
  | href :: hrefs' =>
      match urljoin E url href with
      | Invalid msg => Raise (ValueError msg)
      | Valid l =>
          match urljoin_all url hrefs' with
          | Raise e => Raise e
          | Ok ls => Ok (l :: ls)
          end
      end
  end.

(** [[urljoin(url, a["href"]) for a in soup.find_all("a", href=True)]] *)
Definition resolved_links (soup : Dom.node) (url : string) : result (list string) :=
  urljoin_all url (omap (Dom.attr "href") (Dom.find_all_with_attr "a" "href" soup)).

(** [list(set(l))]: the distinct elements, in the set's order. *)
Definition list_set (l : list string) : list string :=
  elements (list_to_set l : gset string).

(** [WebScraper.extract_content] *)
Definition extract_content (html url : string) : result ScrapedPage :=
  let soup := cleaned_soup html in
  match extract_metadata soup with
  | Raise e => Raise e
  | Ok metadata =>
      let content := paragraph_text soup in
      match resolved_links soup url with
      | Raise e => Raise e
      | Ok resolved =>
          let links := firstn 10 resolved in
          let content :=
            if summarize_content self && (100 <? PyStr.word_count content)
            then summarize_text content
            else content in
          Ok {| page_title := md_title metadata;
                page_description := Some (md_description metadata);
                page_keywords := Some (md_keywords metadata);
                content := if String.eqb content "" then "No main content found."
                           else content;
                links := list_set links |}
      end
  end.

Definition denied_page : ScrapedPage :=
  {| page_title := Some "No Title"; page_description := None; page_keywords := None;
     content := "Access denied by robots.txt"; links := [] |}.

Definition failed_page (url : string) : ScrapedPage :=
  {| page_title := Some "No Title"; page_description := None; page_keywords := None;
     content := "Failed to fetch " ++ url; links := [] |}.

(** [not html] *)
Definition not_html (html : option string) : bool :=
  match html with
  | None => true
  | Some h => String.eqb h ""
  end.

(** [WebScraper.scrape_page] *)
Definition scrape_page (url : string) : M ScrapedPage :=
  allowed <- can_fetch url ;;
  if negb allowed then ret denied_page
  else
    html <- (if enable_js self then fetch_js_page url else fetch_page url) ;;
    if not_html html then ret (failed_page url)
    else lift (extract_content (default "" html) url).

(** [WebScraper.scrape_multiple_pages], from the [results] built so far. *)
Fixpoint scrape_multiple_pages_loop (urls : list string)
    (results : gmap string ScrapedPage) : M (gmap string ScrapedPage) :=
  match urls with
  | [] => ret results
  | url :: urls' =>
      log Info url ;;;
      page <- scrape_page url ;;
      scrape_multiple_pages_loop urls' (<[url := page]> results)
  end.

Definition scrape_multiple_pages (urls : list string) : M (gmap string ScrapedPage) :=
  scrape_multiple_pages_loop urls ∅.

End WebScraperMethods.

(** ** search.py *)

Record SearchModule := {
  max_results : Z;
  default_time_range : string
}.

(** [SearchModule(max_results=n)] *)
Definition new_SearchModule (n : Z) : SearchModule :=
  {| max_results := n; default_time_range := "none" |}.

Section SearchModuleMethods.

Context (E : Env) (self : SearchModule).

(** [any(keyword.lower() in title or keyword.lower() in snippet
         for keyword in keywords)] *)
Definition any_keyword (keywords : list string) (title snippet : string) : bool :=
  existsb (fun keyword =>
             PyStr.contains (str_lower E keyword) title
             || PyStr.contains (str_lower E keyword) snippet) keywords.

(** [if keywords and ...]: a list is true when it is there and not empty. *)
Definition truthy (keywords : option (list string)) : bool :=
  match keywords with
  | Some (_ :: _) => true
  | _ => false
  end.

(** [SearchModule._filter_results] *)
Definition _filter_results (results : list (gmap string string))
    (include_keywords exclude_keywords : option (list string))
  : list (gmap string string) :=
  List.filter
    (fun r =>
       let title := str_lower E (default "" (r !! "title")) in
       let snippet := str_lower E (default "" (r !! "body")) in
       if truthy include_keywords
          && negb (any_keyword (default [] include_keywords) title snippet)
       then false
       else if truthy exclude_keywords
               && any_keyword (default [] exclude_keywords) title snippet
       then false
       else true)
    results.

(** [SearchModule.search] *)
Definition search (query : string) (time_range : option string)
    (include_keywords exclude_keywords : option (list string))
  : M (list SearchResult) :=
  let time_range :=
    match time_range with
    | Some t => if String.eqb t "" then default_time_range self else t
    | None => default_time_range self
    end in
  try_except
    (emit (ESearch query) ;;;
     r <- exchange (fun n => ddgs_text E n query time_range (max_results self)) ;;
     results <- lift r ;;
     ret (map (fun r => {| title := default "No Title" (r !! "title");
                           link := default "No Link" (r !! "href");
                           snippet := default "No Snippet" (r !! "body") |})
            (_filter_results results include_keywords exclude_keywords)))
    (fun _ => true)
    (fun _ => log Console "Error during search" ;;; ret []).

End SearchModuleMethods.

(** ** search_and_scrape.py *)

Record SearchAndScrape := {
  search_module : SearchModule;
  web_scraper : WebScraper
}.

(** [SearchAndScrape(max_results=n)] *)
Definition new_SearchAndScrape (playwright_installed : bool) (n : Z) : SearchAndScrape :=
  {| search_module := new_SearchModule n;
     web_scraper := default_WebScraper playwright_installed |}.

Section SearchAndScrapeMethods.

Context (E : Env) (self : SearchAndScrape).

(** The scraping loop of [search_and_scrape]: an exception of
    [scrape_page] is caught and printed, and leaves no entry. *)
Fixpoint scrape_urls (urls : list string) (scraped_data : gmap string ScrapedPage)
  : M (gmap string ScrapedPage) :=
  match urls with
  | [] => ret scraped_data
  | url :: urls' =>
      scraped_data' <-
        try_except
          (page <- scrape_page E (web_scraper self) url ;;
           ret (<[url := page]> scraped_data))
          (fun _ => true)
          (fun _ => log Console url ;;; ret scraped_data) ;;
      scrape_urls urls' scraped_data'
  end.

(** ["Access denied by robots.txt" in scraped_content.get("content", "")] *)
Definition is_restricted (scraped_content : option ScrapedPage) : bool :=
  PyStr.contains "Access denied by robots.txt"
    (match scraped_content with Some p => content p | None => "" end).

(** The dictionary appended to [combined_results] for one search result,
    given [urlparse(url).netloc]. *)
Definition combined_record (result : SearchResult)
    (scraped_content : option ScrapedPage) (domain : string) : CombinedRecord :=
  let url := link result in
  let content := match scraped_content with
                 | Some p => content p
                 | None => "No content scraped."
                 end in
  let wc := if String.eqb content "No content scraped."
            then 0 else PyStr.word_count content in
  let links := list_set (match scraped_content with
                         | Some p => links p
                         | None => []
                         end) in
  {| c_title := title result;
     c_snippet := snippet result;
     c_link := url;
     scraped_content := content;
     word_count := if is_restricted scraped_content then 0 else wc;
     source := domain;
     scraped_links := links |}.

(** The assembling loop of [search_and_scrape]. A result that is not
    skipped has its link parsed, outside any [try]. *)
Fixpoint combine (search_results : list SearchResult)
    (scraped_data : gmap string ScrapedPage) (skip_restricted : bool)
  : M (list CombinedRecord) :=
  match search_results with
  | [] => ret []
  | result :: rest =>
      let scraped_content := scraped_data !! link result in
      if skip_restricted && is_restricted scraped_content then
        log Console (link result) ;;;
        combine rest scraped_data skip_restricted
      else
        parsed_url <- lift (url_result (urlparse E (link result))) ;;
        combined_results <- combine rest scraped_data skip_restricted ;;
        ret (combined_record result scraped_content (netloc parsed_url)
               :: combined_results)
  end.

(** [SearchAndScrape.search_and_scrape] *)
Definition search_and_scrape (query : string) (skip_restricted : bool)
    (time_range : option string)
    (include_keywords exclude_keywords : option (list string))
  : M (list CombinedRecord) :=
  hit <- cache_get query ;;
  match hit with
  | Some cached => log Console query ;;; ret cached
  | None =>
      log Console query ;;;
      search_results <- search E (search_module self) query time_range
                          include_keywords exclude_keywords ;;
      match search_results with
      | [] => log Console "No search results found." ;;; ret []
      | _ :: _ =>
          let urls := map link search_results in
          scraped_data <- scrape_urls urls ∅ ;;
          combined_results <- combine search_results scraped_data skip_restricted ;;
          cache_put query combined_results ;;;
          ret combined_results
      end
  end.

End SearchAndScrapeMethods.

(** ** Notions used to state the properties *)

(** Every world [m] can end in is related by [R] to the one it started in. *)
Definition sat {A} (R : world -> world -> Prop) (m : M A) : Prop :=
  forall w, R w (m w).2.


(** The page requests in a trace, [requests.get] and the browser's
    [page.goto] alike, with the time each was dispatched at. *)
Definition dispatch (e : event) : option (string * Z) :=
  match e with
  | EGet url t => Some (url, t)
  | EBrowser url t => Some (url, t)
  | _ => None
  end.

Definition dispatches (tr : list event) : list (string * Z) := omap dispatch tr.

(** The requests of [requests.get] alone. *)
Definition get_request (e : event) : option (string * Z) :=
  match e with
  | EGet url t => Some (url, t)
  | _ => None
  end.

Definition get_requests (tr : list event) : list (string * Z) := omap get_request tr.

(** [urlparse(url).netloc], and the empty string for a URL that
    [urlparse] rejects: no request is ever sent for such a URL. *)
Definition url_netloc (E : Env) (url : string) : string :=
  match urlparse E url with
  | Valid parsed_url => netloc parsed_url
  | Invalid _ => ""
  end.

(** In a list of requests, newest first, any two to the same domain are
    at least [gap] seconds apart. *)
Fixpoint separated (domain_of : string -> string) (gap : Z) (reqs : list (string * Z)) : Prop :=
  match reqs with
  | [] => True
  | (url, t) :: older =>
      (forall url' t', (url', t') ∈ older -> domain_of url' = domain_of url -> gap <= t - t')
      /\ separated domain_of gap older
  end.

(** [w'] is [w] some steps later, with the cache as it was: the trace
    has grown at its head, the clock and the exchange counter have not
    gone back. *)
Definition extends (w w' : world) : Prop :=
  (exists new, trace w' = (new ++ trace w)%list)
  /\ cache w' = cache w
  /\ clock w <= clock w'
  /\ (exchanges w <= exchanges w')%nat.

(** The fetch that [scrape_page] picks. *)
Definition fetch (E : Env) (self : WebScraper) (url : string) : M (option string) :=
  if enable_js self then fetch_js_page E self url else fetch_page E self url.

(** What [request] makes of an outcome of [requests.get]: the body, or
    the exception raised by the call or by [raise_for_status]. *)
Definition response_text (o : http_outcome) : result string :=
  match o with
  | HttpRaise e => Raise e
  | HttpResponse status text =>
      if (400 <=? status) && (status <? 600)
      then Raise (RequestException "HTTPError")
      else Ok text
  end.

(** An HTTP attempt fails: it ends in a [requests.RequestException]. *)
Definition attempt_fails (o : http_outcome) : bool :=
  match response_text o with
  | Raise e => is_request_exception e
  | Ok _ => false
  end.

(** How long [respect_rate_limit] sleeps, if it does. *)
Definition rate_limit_wait (self : WebScraper) (last : option Z) (now : Z) : option Z :=
  match last with
  | Some t => if now - t <? rate_limit self then Some (rate_limit self - (now - t)) else None
  | None => None
  end.

(** The world [respect_rate_limit] leaves. *)
Definition after_rate_limit (E : Env) (self : WebScraper) (url : string) (w : world) : world :=
  let domain := url_netloc E url in
  let wait := rate_limit_wait self (last_request_time w !! domain) (clock w) in
  let now := clock w + match wait with Some d => Z.max 0 d | None => 0 end in
  {| clock := now;
     exchanges := exchanges w;
     last_request_time := <[domain := now]> (last_request_time w);
     cache := cache w;
     trace := EStamp domain now
              :: (match wait with Some d => [ESleep RateLimitWait d] | None => [] end
                  ++ trace w)%list |}.

(** The world [request] leaves. *)
Definition after_request (E : Env) (url : string) (w : world) : world :=
  {| clock := clock w + Z.of_nat (http_get E (exchanges w) url).2;
     exchanges := S (exchanges w);
     last_request_time := last_request_time w;
     cache := cache w;
     trace := EGet url (clock w) :: trace w |}.

(** The steps of [fetch_page] that the retry policy is about. *)
Inductive fetch_step :=
| SStamp (domain : string)
| SGet (url : string)
| SBackoff (d : Z).

Definition fetch_shape (e : event) : option fetch_step :=
  match e with
  | EStamp domain _ => Some (SStamp domain)
  | EGet url _ => Some (SGet url)
  | ESleep Backoff d => Some (SBackoff d)
  | _ => None
  end.

(** What one failed attempt numbered [k] adds to the trace, oldest first,
    as far as the retry policy goes. *)
Definition failed_attempt_steps (E : Env) (url : string) (k : nat) : list fetch_step :=
  [SStamp (url_netloc E url); SGet url; SBackoff (2 ^ Z.of_nat k)].

(** What the rate limiter keeps true: no timestamp is in the future,
    every request sent so far is no later than the timestamp of its
    domain, the requests sent so far are [gap] apart per domain, and
    every one of them is for a URL that [urlparse] accepts. *)
Definition rate_inv (E : Env) (gap : Z) (w : world) : Prop :=
  (forall domain t, last_request_time w !! domain = Some t -> t <= clock w)
  /\ (forall url t, (url, t) ∈ get_requests (trace w) ->
        exists ts, last_request_time w !! url_netloc E url = Some ts /\ t <= ts)
  /\ separated (url_netloc E) gap (get_requests (trace w))
  /\ (forall url t, (url, t) ∈ get_requests (trace w) ->
        exists parsed_url, urlparse E url = Valid parsed_url).

(** [m] keeps [rate_inv]. *)
Definition keeps_rate (E : Env) (gap : Z) (w w' : world) : Prop :=
  rate_inv E gap w -> rate_inv E gap w'.

(** A step that sends no request and writes no timestamp. *)
Definition quiet (w w' : world) : Prop :=
  last_request_time w' = last_request_time w
  /\ get_requests (trace w') = get_requests (trace w)
  /\ clock w <= clock w'.


(** ** Further notions *)

(** [s[n:]] *)
Fixpoint str_drop (n : nat) (s : string) : string :=
  match n, s with
  | O, _ => s
  | S _, EmptyString => ""
  | S n', String _ s' => str_drop n' s'
  end.

(** The events of [w'] that [P] picks are those of [w]: the steps in
    between emitted none of them. *)
Definition same_events (P : event -> bool) (w w' : world) : Prop :=
  List.filter P (trace w') = List.filter P (trace w).

Definition is_browser_load (e : event) : bool :=
  match e with EBrowser _ _ => true | _ => false end.

(** The loads of one URL in the browser. *)
Definition is_load_of (url : string) (e : event) : bool :=
  match e with EBrowser url' _ => String.eqb url url' | _ => false end.

(** What only the [requests.get] path does: send a request, sleep, write
    a timestamp. *)
Definition is_static_fetch_step (e : event) : bool :=
  match e with
  | EGet _ _ | ESleep _ _ | EStamp _ _ => true
  | _ => false
  end.




(** [any(c.isspace() for c in s)] *)
Fixpoint has_space (s : string) : bool :=
  match s with
  | EmptyString => false
  | String c s' => PyStr.is_space c || has_space s'
  end.

(** The seconds the [n] exchanges from the one numbered [first] take,
    when all of them are requests for [url]. *)
Definition total_latency (E : Env) (url : string) (first n : nat) : Z :=
  foldr (fun i acc => Z.of_nat (http_get E i url).2 + acc) 0 (seq first n).

(** ** A small concrete environment, for examples *)

Module Example.

(** The part of a URL before ["://"], and the part between ["://"] and the
    next ["/"]: what [urlparse] gives on URLs such as
    [http://host/path]. *)
Definition scheme_of (url : string) : string :=
  hd "" (PyStr.split_on "://" url).

Definition netloc_of (url : string) : string :=
  hd "" (PyStr.split_on "/" (nth 1 (PyStr.split_on "://" url) "")).

(** [urlparse], which raises on a host with one square bracket only. *)
Definition parse_url (url : string) : url_outcome ParseResult :=
  if xorb (PyStr.contains "[" (netloc_of url)) (PyStr.contains "]" (netloc_of url))
  then Invalid "Invalid IPv6 URL"
  else Valid {| scheme := scheme_of url; netloc := netloc_of url |}.

(** [urljoin] on an absolute reference, which it parses and returns as it
    is; the examples use no other. *)
Definition join_url (base href : string) : url_outcome string :=
  if PyStr.contains "://" href
  then match parse_url href with
       | Valid _ => Valid href
       | Invalid msg => Invalid msg
       end
  else Valid (base ++ href)%string.

Fixpoint lower (s : string) : string :=
  match s with
  | EmptyString => ""
  | String c s' =>
      let n := nat_of_ascii c in
      String (if (65 <=? n)%nat && (n <=? 90)%nat then ascii_of_nat (n + 32) else c)
        (lower s')
  end.

(** The network answers 200 with [body], at once. *)
Definition net_ok (body : string) : nat -> string -> http_outcome * nat :=
  fun _ _ => (HttpResponse 200 body, O).

(** The network is down. *)
Definition net_down : nat -> string -> http_outcome * nat :=
  fun _ _ => (HttpRaise (RequestException "ConnectionError"), O).

Definition robots_allow : nat -> string -> robots_outcome * nat :=
  fun _ _ => (RobotsRules (fun _ _ => true), O).

Definition robots_deny : nat -> string -> robots_outcome * nat :=
  fun _ _ => (RobotsRules (fun _ _ => false), O).

Definition robots_down : nat -> string -> robots_outcome * nat :=
  fun _ _ => (RobotsRaise (URLError "unreachable"), O).

(** The site answers the request for robots.txt with [code]. *)
Definition robots_status (code : Z) : nat -> string -> robots_outcome * nat :=
  fun _ _ => (RobotsHttpError code, O).

Definition br_ok (html : string) : nat -> string -> browser_outcome * nat :=
  fun _ _ => (BrowserContent html, O).

Definition anchor (href : string) : Dom.node :=
  Dom.Elem "a" {[ "href" := href ]} [].

Definition paragraph (text : string) : Dom.node :=
  Dom.Elem "p" ∅ [Dom.Text text].

(** Ten anchors to the same page, then one to another. *)
Definition doc_links : Dom.node :=
  Dom.document (repeat (anchor "http://e.com/a") 10 ++ [anchor "http://e.com/b"]).

(** [n] copies of [s], joined by [sep]. *)
Definition copies (n : nat) (s sep : string) : string :=
  PyStr.join sep (repeat s n).

(** A sentence of thirty words, and a paragraph of five such sentences. *)
Definition sentence : string := copies 30 "word" " ".

Definition doc_long : Dom.node :=
  Dom.document [paragraph (copies 5 sentence ". ")].

(** A page with an empty paragraph. *)
Definition doc_empty : Dom.node := Dom.document [Dom.Elem "p" ∅ []].

(** A page that quotes the robots sentinel. *)
Definition doc_quote : Dom.node :=
  Dom.document [paragraph "The server said: Access denied by robots.txt, try later."].

(** A page whose only anchor is in the navigation bar. *)
Definition doc_nav : Dom.node :=
  Dom.document [Dom.Elem "nav" ∅ [anchor "http://e.com/a"]].

(** A page with an anchor that [urljoin] rejects. *)
Definition doc_bad_href : Dom.node :=
  Dom.document [anchor "http://[bad"].

(** The markup of these pages. *)
Definition html_links : string :=
  copies 10 "<a href='http://e.com/a'></a>" "" ++ "<a href='http://e.com/b'></a>".

Definition html_long : string := "<p>" ++ copies 5 sentence ". " ++ "</p>".

Definition html_empty : string := "<p></p>".

Definition html_quote : string :=
  "<p>The server said: Access denied by robots.txt, try later.</p>".

Definition html_nav : string := "<nav><a href='http://e.com/a'></a></nav>".

Definition html_bad_href : string := "<a href='http://[bad'></a>".

(** The parser on the markups above; any other markup is taken as plain
    text, and the empty markup gives the empty document. *)
Definition parse (html : string) : Dom.node :=
  if String.eqb html html_links then doc_links
  else if String.eqb html html_long then doc_long
  else if String.eqb html html_empty then doc_empty
  else if String.eqb html html_quote then doc_quote
  else if String.eqb html html_nav then doc_nav
  else if String.eqb html html_bad_href then doc_bad_href
  else if String.eqb html "" then Dom.document []
  else Dom.document [Dom.Text html].

(** An environment that answers every request by [net], every robots.txt
    by [robots], every page load by [br] and every search by [found]. *)
Definition env
    (net : nat -> string -> http_outcome * nat)
    (robots : nat -> string -> robots_outcome * nat)
    (br : nat -> string -> browser_outcome * nat)
    (found : result (list (gmap string string))) : Env :=
  {| parse_html := parse;
     urljoin := join_url;
     urlparse := parse_url;
     str_lower := lower;
     http_get := net;
     robots_txt := robots;
     browser := br;
     ddgs_text := fun _ _ _ _ => (found, O) |}.

(** The network answers 200 with [body], except for one URL, on which
    the client breaks with an exception that is not a
    [RequestException]. *)
Definition net_one_bad (bad body : string) : nat -> string -> http_outcome * nat :=
  fun _ url =>
    if String.eqb url bad
    then (HttpRaise (OtherException "boom"), O)
    else (HttpResponse 200 body, O).

(** A raw search result, as the provider gives it. *)
Definition raw (t href body : string) : gmap string string :=
  {[ "title" := t; "href" := href; "body" := body ]}.

Definition found3 : list (gmap string string) :=
  [raw "A" "http://e.com/a" "first"; raw "B" "http://e.com/bad" "second";
   raw "C" "http://e.com/c" "third"].

Definition res (t href body : string) : SearchResult :=
  {| title := t; link := href; snippet := body |}.

Definition scraper : WebScraper := default_WebScraper false.

Definition scraper_no_summary : WebScraper :=
  new_WebScraper false default_user_agent 1 10 3 false false.

Definition scraper_js : WebScraper :=
  new_WebScraper true default_user_agent 1 10 3 true true.

End Example.

(** ** More cases *)

Module Cases.

(** The first [k] exchanges time out after a second, the following ones
    answer 200 with [body] after a second. *)
Definition net_flaky (k : nat) (body : string) : nat -> string -> http_outcome * nat :=
  fun n _ =>
    if (n <? k)%nat
    then (HttpRaise (RequestException "Timeout"), 1%nat)
    else (HttpResponse 200 body, 1%nat).


(** Every request times out after two seconds. *)
Definition net_timeout : nat -> string -> http_outcome * nat :=
  fun _ _ => (HttpRaise (RequestException "Timeout"), 2%nat).

(** A world in which [e.com] was last requested at second 10 and the
    clock shows [now]. *)
Definition world_at (now : Z) : world :=
  {| clock := now; exchanges := 0; last_request_time := {[ "e.com" := 10 ]};
     cache := ∅; trace := [] |}.

(** A paragraph whose first 2400 characters end with [". "]: two short
    sentences, one of 478 words, and a tail. *)
Definition long_paragraph : string :=
  "xxxx. x. " ++ Example.copies 478 "word" " " ++ ". tail".

(** An environment like [Example.env], whose parser gives [doc] for
    every markup. *)
Definition env_of (doc : Dom.node) : Env :=
  {| parse_html := fun _ => doc;
     urljoin := Example.join_url;
     urlparse := Example.parse_url;
     str_lower := Example.lower;
     http_get := Example.net_ok "";
     robots_txt := Example.robots_allow;
     browser := Example.br_ok "";
     ddgs_text := fun _ _ _ _ => (Ok [], O) |}.

End Cases.

(** * Properties *)

Example split_on_ex1 :
  PyStr.split_on ". " "A b. C d. E." = ["A b"; "C d"; "E."].
Proof. reflexivity. Qed.

Example split_on_ex2 : PyStr.split_on ". " ". x. " = [""; "x"; ""].
Proof. reflexivity. Qed.

Example split_ws_ex : PyStr.split_ws "  a  bc d " = ["a"; "bc"; "d"].
Proof. reflexivity. Qed.

Example strip_ex : PyStr.strip "  a b  " = "a b".
Proof. reflexivity. Qed.

Example contains_ex : PyStr.contains "cd" "abcde" = true /\ PyStr.contains "ce" "abcde" = false.
Proof. split; reflexivity. Qed.

(** ** Strings *)

Lemma append_cons (a : ascii) (p q : string) :
  (String a p ++ q)%string = String a (p ++ q)%string.
Proof. reflexivity. Qed.

Lemma append_empty (q : string) : ("" ++ q)%string = q.
Proof. reflexivity. Qed.

Lemma starts_with_spec (p s : string) :
  PyStr.starts_with p s = true <-> exists post, s = (p ++ post)%string.
Proof.
  revert s. induction p as [|a p IH]; intros s; simpl.
  - split; [intros _; exists s; reflexivity | reflexivity].
  - destruct s as [|b s].
    + split; [discriminate | intros [post H]; discriminate].
    + destruct (Ascii.eqb_spec a b) as [->|Hne].
      * rewrite IH. split; intros [post H]; exists post;
          rewrite append_cons in *; congruence.
      * split; [discriminate | intros [post H]; rewrite append_cons in H; congruence].
Qed.

Lemma contains_spec (sub s : string) :
  PyStr.contains sub s = true <-> exists pre post, s = (pre ++ sub ++ post)%string.
Proof.
  induction s as [|c s IH]; simpl.
  - rewrite orb_false_r, starts_with_spec. split.
    + intros [post H]. exists "", post. exact H.
    + intros [pre [post H]]. destruct pre; [eauto | discriminate].
  - rewrite orb_true_iff, IH, starts_with_spec. split.
    + intros [[post H] | [pre [post H]]].
      * exists "", post. exact H.
      * exists (String c pre), post. rewrite append_cons. congruence.
    + intros [pre [post H]]. destruct pre as [|c' pre].
      * left. eauto.
      * right. exists pre, post. rewrite append_cons in H. congruence.
Qed.

(** ** Running computations *)

Lemma bind_ok {A B} (m : M A) (k : A -> M B) w a w1 :
  m w = (Ok a, w1) -> bind m k w = k a w1.
Proof. unfold bind. intros ->. reflexivity. Qed.

Lemma bind_raise {A B} (m : M A) (k : A -> M B) w e w1 :
  m w = (Raise e, w1) -> bind m k w = (Raise e, w1).
Proof. unfold bind. intros ->. reflexivity. Qed.

Section Sat.

Context (R : world -> world -> Prop).
Hypothesis R_refl : forall w, R w w.
Hypothesis R_trans : forall w1 w2 w3, R w1 w2 -> R w2 w3 -> R w1 w3.

Lemma sat_ret {A} (a : A) : sat R (ret a).
Proof. intros w. apply R_refl. Qed.

Lemma sat_raise {A} (e : exn) : sat R (raise e : M A).
Proof. intros w. apply R_refl. Qed.

Lemma sat_lift {A} (r : result A) : sat R (lift r).
Proof. intros w. apply R_refl. Qed.

Lemma sat_time_time : sat R time_time.
Proof. intros w. apply R_refl. Qed.

Lemma sat_get_cache : sat R get_cache.
Proof. intros w. apply R_refl. Qed.

Lemma sat_get_last_request_time : sat R get_last_request_time.
Proof. intros w. apply R_refl. Qed.

Lemma sat_bind {A B} (m : M A) (k : A -> M B) :
  sat R m -> (forall a, sat R (k a)) -> sat R (bind m k).
Proof.
  intros Hm Hk w. unfold bind. specialize (Hm w).
  destruct (m w) as [[a|e] w1]; simpl in *; [|exact Hm].
  eapply R_trans; [exact Hm | apply Hk].
Qed.

Lemma sat_try_except {A} (m : M A) catches (h : exn -> M A) :
  sat R m -> (forall e, sat R (h e)) -> sat R (try_except m catches h).
Proof.
  intros Hm Hh w. unfold try_except. specialize (Hm w).
  destruct (m w) as [[a|e] w1]; simpl in *; [exact Hm|].
  destruct (catches e); [|exact Hm].
  eapply R_trans; [exact Hm | apply Hh].
Qed.

End Sat.






(** ** Assembling the combined records *)







Example ex_urlparse :
  Example.parse_url "http://e.com/a/b" = Valid {| scheme := "http"; netloc := "e.com" |}
  /\ Example.parse_url "http://[bad" = Invalid "Invalid IPv6 URL".
Proof. split; reflexivity. Qed.


(** ** Extraction: links *)

Lemma list_set_NoDup l : NoDup (list_set l).
Proof. unfold list_set. apply NoDup_elements. Qed.

Lemma elem_of_list_set l x : x ∈ list_set l <-> x ∈ l.
Proof. unfold list_set. rewrite elem_of_elements, elem_of_list_to_set. reflexivity. Qed.

Lemma list_set_length l : (length (list_set l) <= length l)%nat.
Proof.
  apply submseteq_length, NoDup_submseteq; [apply list_set_NoDup|].
  intros x. apply elem_of_list_set.
Qed.

(** What the comprehension returns is the list of the resolved
    references, in order; what it raises is what [urljoin] raises on one
    of them. *)
Lemma urljoin_all_spec E url hrefs :
  match urljoin_all E url hrefs with
  | Ok ls => Forall2 (fun href l => urljoin E url href = Valid l) hrefs ls
  | Raise e => exists href msg, href ∈ hrefs /\ urljoin E url href = Invalid msg
                                /\ e = ValueError msg
  end.
Proof.
  induction hrefs as [|h hrefs IH]; cbn [urljoin_all]; [constructor|].
  destruct (urljoin E url h) as [l|msg] eqn:Hh.
  - destruct (urljoin_all E url hrefs) as [ls|e].
    + constructor; [exact Hh | exact IH].
    + destruct IH as [h' [msg [Hin He]]]. exists h', msg. split; [|exact He].
      apply elem_of_cons. right. exact Hin.
  - exists h, msg. split; [|split; [exact Hh | reflexivity]].
    apply elem_of_cons. left. reflexivity.
Qed.

(** Every anchor that [find_all("a", href=True)] returns has its [href]
    read. *)
Lemma anchors_hrefs soup :
  Forall2 (fun a href => Dom.attr "href" a = Some href)
    (Dom.find_all_with_attr "a" "href" soup)
    (omap (Dom.attr "href") (Dom.find_all_with_attr "a" "href" soup)).
Proof.
  unfold Dom.find_all_with_attr.
  induction (Dom.descendants soup) as [|k l IH]; [constructor|].
  cbn [List.filter].
  destruct (Dom.has_name "a" k); cbn [andb]; [|exact IH].
  case_bool_decide as Hk; [|exact IH].
  destruct Hk as [h Hh]. cbn [omap list_omap]. rewrite Hh.
  constructor; [exact Hh | exact IH].
Qed.

Lemma resolved_links_spec E soup url resolved :
  resolved_links E soup url = Ok resolved ->
  Forall2 (fun a l => exists href, Dom.attr "href" a = Some href
                                   /\ urljoin E url href = Valid l)
    (Dom.find_all_with_attr "a" "href" soup) resolved.
Proof.
  unfold resolved_links. intros Hr.
  pose proof (urljoin_all_spec E url
                (omap (Dom.attr "href") (Dom.find_all_with_attr "a" "href" soup))) as Hs.
  rewrite Hr in Hs. pose proof (anchors_hrefs soup) as Ha.
  revert Ha Hs. generalize (omap (Dom.attr "href") (Dom.find_all_with_attr "a" "href" soup)).
  generalize (Dom.find_all_with_attr "a" "href" soup). clear Hr.
  intros anchors hrefs Ha. revert resolved.
  induction Ha as [|a h anchors hrefs Hah Ha IH]; intros resolved Hs.
  - inversion Hs. constructor.
  - inversion Hs as [|? l ? ls Hl Hls]; subst. constructor; [eauto | apply IH; exact Hls].
Qed.

(** A page is returned when the metadata can be read and every reference
    can be resolved, and is made of both. *)
Lemma extract_content_ok E self html url page :
  extract_content E self html url = Ok page ->
  exists metadata resolved,
    extract_metadata (cleaned_soup E html) = Ok metadata
    /\ resolved_links E (cleaned_soup E html) url = Ok resolved
    /\ page_description page = Some (md_description metadata)
    /\ page_keywords page = Some (md_keywords metadata)
    /\ links page = list_set (firstn 10 resolved)
    /\ content page
       = let text := paragraph_text (cleaned_soup E html) in
         let c := if summarize_content self && (100 <? PyStr.word_count text)
                  then summarize_text text else text in
         if String.eqb c "" then "No main content found." else c.
Proof.
  unfold extract_content.
  destruct (extract_metadata _) as [metadata|e]; [|discriminate].
  destruct (resolved_links _ _ _) as [resolved|e]; [|discriminate].
  intros [= <-]. exists metadata, resolved. repeat split.
Qed.

(** C1, as the code has it: every anchor [href] of the document, once the
    [script], [style], [nav], [footer] and [header] elements are cut out,
    is resolved against the source URL, the resolved list is cut to its
    first 10 entries, and the cut list is deduplicated. The [links] field
    holds at most 10 pairwise distinct URLs, all of them resolved links,
    and holds every resolved link when the cleaned page has at most 10
    anchors with an [href]. *)
Theorem extract_links_cap_then_dedup (E : Env) (self : WebScraper)
    (html url : string) (page : ScrapedPage) :
  extract_content E self html url = Ok page ->
  let anchors := Dom.find_all_with_attr "a" "href" (cleaned_soup E html) in
  exists resolved,
    resolved_links E (cleaned_soup E html) url = Ok resolved
    /\ Forall2 (fun a l => exists href, Dom.attr "href" a = Some href
                                        /\ urljoin E url href = Valid l)
         anchors resolved
    /\ length resolved = length anchors
    /\ links page = list_set (firstn 10 resolved)
    /\ NoDup (links page)
    /\ (length (links page) <= 10)%nat
    /\ (forall l, l ∈ links page -> l ∈ resolved)
    /\ ((length anchors <= 10)%nat -> forall l, l ∈ resolved -> l ∈ links page).
Proof.
  intros Hx anchors.
  destruct (extract_content_ok _ _ _ _ _ Hx) as (metadata & resolved & _ & Hr & _ & _ & Hl & _).
  pose proof (resolved_links_spec _ _ _ _ Hr) as Hall. fold anchors in Hall.
  assert (Hlen : length resolved = length anchors).
  { symmetry. exact (Forall2_length _ _ _ Hall). }
  exists resolved. split; [exact Hr|]. split; [exact Hall|]. split; [exact Hlen|].
  split; [exact Hl|].
  rewrite Hl. split; [apply list_set_NoDup|]. split.
  - etransitivity; [apply list_set_length|]. rewrite length_take. lia.
  - split.
    + intros l Hin. apply (proj1 (elem_of_list_set _ _)) in Hin.
      exact (subseteq_take _ _ _ Hin).
    + intros Hle l Hin. apply elem_of_list_set.
      rewrite take_ge by lia. exact Hin.
Qed.

(** C1, as stated, fails, in two ways. With ten anchors to one page
    followed by an anchor to another there are two distinct resolved
    links, yet the second is not among [links]: the list is cut before it
    is deduplicated. And an anchor of the raw document that sits in a
    [nav] element is not resolved at all. *)
Lemma extract_links_dedup_then_cap_fails :
  ~ (forall (E : Env) (self : WebScraper) (html url : string) (page : ScrapedPage)
            (resolved : list string),
        extract_content E self html url = Ok page ->
        resolved_links E (cleaned_soup E html) url = Ok resolved ->
        (length (list_set resolved) <= 10)%nat ->
        forall l, l ∈ resolved -> l ∈ links page)
  /\ (let E := Example.env (Example.net_ok Example.html_nav) Example.robots_allow
                 (Example.br_ok "") (Ok []) in
      exists page,
        extract_content E Example.scraper Example.html_nav "http://e.com/" = Ok page
        /\ Dom.find_all_with_attr "a" "href" (parse_html E Example.html_nav)
           = [Example.anchor "http://e.com/a"]
        /\ links page = []).
Proof.
  split.
  - intros H.
    pose (E := Example.env (Example.net_ok Example.html_links) Example.robots_allow
                 (Example.br_ok "") (Ok [])).
    specialize (H E Example.scraper Example.html_links "http://e.com/"
                  {| page_title := Some "No Title";
                     page_description := Some "No Description";
                     page_keywords := Some "No Keywords";
                     content := "No main content found.";
                     links := ["http://e.com/a"] |}
                  (repeat "http://e.com/a" 10 ++ ["http://e.com/b"])%list).
    assert (Hb : "http://e.com/b" ∈ ["http://e.com/a"]).
    { apply H; [vm_compute; reflexivity | vm_compute; reflexivity | vm_compute; lia |].
      apply list_elem_of_In. vm_compute. tauto. }
    apply list_elem_of_In in Hb. simpl in Hb. destruct Hb as [Hb|[]]. discriminate.
  - intros E. eexists. split; [vm_compute; reflexivity|].
    split; vm_compute; reflexivity.
Qed.

(** C1 on the page with eleven anchors: one link is kept. *)
Lemma extract_links_cap_then_dedup_witness :
  let E := Example.env (Example.net_ok Example.html_links) Example.robots_allow
             (Example.br_ok "") (Ok []) in
  exists page resolved,
    extract_content E Example.scraper Example.html_links "http://e.com/" = Ok page
    /\ links page = ["http://e.com/a"]
    /\ resolved_links E (cleaned_soup E Example.html_links) "http://e.com/" = Ok resolved
    /\ length resolved = 11%nat
    /\ NoDup (links page).
Proof.
  intros E.
  destruct (extract_links_cap_then_dedup E Example.scraper Example.html_links "http://e.com/"
              {| page_title := Some "No Title";
                 page_description := Some "No Description";
                 page_keywords := Some "No Keywords";
                 content := "No main content found.";
                 links := ["http://e.com/a"] |})
    as (resolved & Hr & _ & Hlen & _ & Hnd & _).
  - vm_compute. reflexivity.
  - eexists _, resolved. split; [vm_compute; reflexivity|].
    split; [reflexivity|]. split; [exact Hr|]. split; [|exact Hnd].
    rewrite Hlen. vm_compute. reflexivity.
Defined.

(** ** Extraction: content *)

Lemma take_length n s : (String.length (PyStr.take n s) <= n)%nat.
Proof.
  revert s. induction n as [|n IH]; intros s; [simpl; lia|].
  destruct s as [|c s]; simpl; [lia|]. specialize (IH s). lia.
Qed.

Lemma append_nonempty (s t : string) : t <> "" -> (s ++ t)%string <> "".
Proof.
  intros Ht. destruct s as [|c s]; [exact Ht|].
  rewrite append_cons. discriminate.
Qed.

Lemma or_default (c : string) :
  (if String.eqb c "" then "No main content found." else c)
  = if decide (c = "") then "No main content found." else c.
Proof.
  destruct (String.eqb_spec c ""); destruct (decide (c = "")); congruence.
Qed.

Lemma extract_content_content E self html url page :
  extract_content E self html url = Ok page ->
  let text := paragraph_text (cleaned_soup E html) in
  let c := if summarize_content self && (100 <? PyStr.word_count text)
           then summarize_text text else text in
  content page = if decide (c = "") then "No main content found." else c.
Proof.
  intros Hx. destruct (extract_content_ok _ _ _ _ _ Hx) as (m & r & _ & _ & _ & _ & _ & Hc).
  rewrite Hc. apply or_default.
Qed.

(** C7, as the code has it: the paragraph text is cut to 2400 characters;
    with summarization enabled and more than 100 words, more than 3
    sentences become the first 3 joined by [". "] and followed by ["..."];
    a non-empty text is returned as it is when it has 3 sentences or
    fewer, when it has 100 words or fewer, or when summarization is
    disabled; an empty text becomes ["No main content found."]. *)
Theorem extract_content_summary (E : Env) (self : WebScraper)
    (html url : string) (page : ScrapedPage) :
  extract_content E self html url = Ok page ->
  let text := paragraph_text (cleaned_soup E html) in
  let sentences := PyStr.split_on ". " text in
  (String.length text <= 2400)%nat
  /\ (summarize_content self = true -> 100 < PyStr.word_count text ->
      (3 < length sentences)%nat ->
      content page = (PyStr.join ". " (firstn 3 sentences) ++ "...")%string)
  /\ (summarize_content self = true -> 100 < PyStr.word_count text ->
      (length sentences <= 3)%nat -> content page = text)
  /\ (summarize_content self = false -> text <> "" -> content page = text)
  /\ (text = "" -> content page = "No main content found.")
  /\ ((length sentences <= 3)%nat -> text <> "" -> content page = text)
  /\ (PyStr.word_count text <= 100 -> text <> "" -> content page = text).
Proof.
  intros Hx text sentences.
  pose proof (extract_content_content _ _ _ _ _ Hx) as Hc.
  cbv zeta in Hc. fold text in Hc.
  split; [apply take_length|].
  assert (Hwords : 100 < PyStr.word_count text -> text <> "").
  { intros Hw He. rewrite He in Hw. vm_compute in Hw. discriminate. }
  assert (Hshort : (length sentences <= 3)%nat -> summarize_text text = text).
  { intros Hn. unfold summarize_text. fold sentences.
    apply Nat.ltb_ge in Hn. rewrite Hn. reflexivity. }
  split; [|split; [|split; [|split; [|split]]]].
  - intros Hs Hw Hn. rewrite Hc, Hs; clear Hc. apply Z.ltb_lt in Hw. rewrite Hw.
    cbn [andb]. unfold summarize_text. fold sentences.
    apply Nat.ltb_lt in Hn. rewrite Hn.
    case_decide as He; [|reflexivity].
    exfalso. revert He. apply append_nonempty. discriminate.
  - intros Hs Hw Hn. rewrite Hc, Hs; clear Hc. pose proof (Hwords Hw) as Hne.
    apply Z.ltb_lt in Hw. rewrite Hw. cbn [andb]. rewrite (Hshort Hn).
    case_decide; [contradiction | reflexivity].
  - intros Hs Hne. rewrite Hc, Hs; clear Hc. cbn [andb].
    case_decide; [contradiction | reflexivity].
  - intros He. rewrite Hc, He; clear Hc.
    assert (PyStr.word_count "" = 0) as -> by reflexivity.
    rewrite andb_false_r. reflexivity.
  - intros Hn Hne. rewrite Hc; clear Hc. rewrite (Hshort Hn).
    destruct (summarize_content self && (100 <? PyStr.word_count text));
      case_decide; first [contradiction | reflexivity].
  - intros Hw Hne. rewrite Hc; clear Hc.
    apply Z.ltb_ge in Hw. rewrite Hw, andb_false_r.
    case_decide; [contradiction | reflexivity].
Qed.

(** C7, as stated, fails: with summarization disabled, a page whose only
    paragraph is empty does not get its (empty) text back. *)
Lemma summary_disabled_returns_text_fails :
  ~ (forall (E : Env) (self : WebScraper) (html url : string) (page : ScrapedPage),
        extract_content E self html url = Ok page ->
        summarize_content self = false ->
        content page = paragraph_text (cleaned_soup E html)).
Proof.
  intros H.
  pose (E := Example.env (Example.net_ok Example.html_empty) Example.robots_allow
               (Example.br_ok "") (Ok [])).
  specialize (H E Example.scraper_no_summary Example.html_empty "http://e.com/"
                {| page_title := Some "No Title";
                   page_description := Some "No Description";
                   page_keywords := Some "No Keywords";
                   content := "No main content found.";
                   links := [] |}).
  assert (Hc : "No main content found." = paragraph_text (cleaned_soup E Example.html_empty)).
  { apply H; vm_compute; reflexivity. }
  vm_compute in Hc. discriminate.
Qed.

(** C7 on a paragraph of 150 words in 5 sentences: the first 3 are kept. *)
Lemma extract_content_summary_witness :
  let E := Example.env (Example.net_ok Example.html_long) Example.robots_allow
             (Example.br_ok "") (Ok []) in
  exists page,
    extract_content E Example.scraper Example.html_long "http://e.com/" = Ok page
    /\ PyStr.word_count (paragraph_text (cleaned_soup E Example.html_long)) = 150
    /\ length (PyStr.split_on ". " (paragraph_text (cleaned_soup E Example.html_long))) = 5%nat
    /\ content page
       = (Example.copies 3 Example.sentence ". " ++ "...")%string.
Proof.
  intros E. eexists. split; [vm_compute; reflexivity|].
  split; [vm_compute; reflexivity|]. split; [vm_compute; reflexivity|].
  match goal with
  | |- content ?p = _ =>
      pose proof (extract_content_summary E Example.scraper Example.html_long "http://e.com/" p
                    ltac:(vm_compute; reflexivity)) as [_ [H _]]
  end.
  rewrite H; [vm_compute; reflexivity | reflexivity | vm_compute; reflexivity
             | vm_compute; lia].
Defined.

(** ** Worlds only move forward *)

Lemma extends_refl w : extends w w.
Proof. repeat split; [exists []; reflexivity | lia | lia]. Qed.

Lemma extends_trans w1 w2 w3 : extends w1 w2 -> extends w2 w3 -> extends w1 w3.
Proof.
  intros [[n1 H1] [Hc1 [Ht1 He1]]] [[n2 H2] [Hc2 [Ht2 He2]]].
  repeat split; [| congruence | lia | lia].
  exists (n2 ++ n1)%list. rewrite H2, H1. apply app_assoc.
Qed.

Lemma ext_ret {A} (a : A) : sat extends (ret a).
Proof. apply sat_ret, extends_refl. Qed.

Lemma ext_raise {A} e : sat extends (raise e : M A).
Proof. apply sat_raise, extends_refl. Qed.

Lemma ext_lift {A} (r : result A) : sat extends (lift r).
Proof. apply sat_lift, extends_refl. Qed.

Lemma ext_bind {A B} (m : M A) (k : A -> M B) :
  sat extends m -> (forall a, sat extends (k a)) -> sat extends (bind m k).
Proof. apply sat_bind, extends_trans. Qed.

Lemma ext_try_except {A} (m : M A) catches (h : exn -> M A) :
  sat extends m -> (forall e, sat extends (h e)) -> sat extends (try_except m catches h).
Proof. apply sat_try_except, extends_trans. Qed.

Lemma ext_time_time : sat extends time_time.
Proof. apply sat_time_time, extends_refl. Qed.

Lemma ext_get_last_request_time : sat extends get_last_request_time.
Proof. apply sat_get_last_request_time, extends_refl. Qed.

Lemma ext_get_cache : sat extends get_cache.
Proof. apply sat_get_cache, extends_refl. Qed.

Lemma ext_emit e : sat extends (emit e).
Proof. intros w. repeat split; simpl; [exists [e]; reflexivity | lia | lia]. Qed.

Lemma ext_log lvl s : sat extends (log lvl s).
Proof. apply ext_emit. Qed.

Lemma ext_advance d : 0 <= d -> sat extends (advance d).
Proof. intros Hd w. repeat split; simpl; [exists []; reflexivity | lia | lia]. Qed.

Lemma ext_exchange {A} (oracle : nat -> A * nat) : sat extends (exchange oracle).
Proof.
  intros w. unfold exchange. destruct (oracle (exchanges w)) as [a latency].
  repeat split; simpl; [exists []; reflexivity | lia | lia].
Qed.

Lemma ext_set_last_request_time d t : sat extends (set_last_request_time d t).
Proof.
  intros w. repeat split; simpl; [exists [EStamp d t]; reflexivity | lia | lia].
Qed.

Lemma ext_time_sleep site d : sat extends (time_sleep site d).
Proof.
  unfold time_sleep. apply ext_bind; [apply ext_emit|].
  intros _. apply ext_advance. lia.
Qed.

(** Decomposes a goal [sat extends m] along the structure of [m], using
    the hypotheses for the recursive calls. *)
Ltac ext_solve :=
  repeat first
    [ match goal with |- forall _, _ => intro end
    | match goal with H : context [sat extends _] |- sat extends _ => apply H end
    | apply ext_ret | apply ext_raise | apply ext_lift | apply ext_time_time
    | apply ext_get_last_request_time | apply ext_get_cache
    | apply ext_emit | apply ext_log | apply ext_exchange
    | apply ext_set_last_request_time | apply ext_time_sleep
    | apply ext_bind | apply ext_try_except
    | progress cbv zeta
    | match goal with
      | |- sat _ (match ?x with _ => _ end) => destruct x
      end ].


Lemma ext_respect_rate_limit E self url : sat extends (respect_rate_limit E self url).
Proof. unfold respect_rate_limit. ext_solve. Qed.

Lemma ext_fetch_attempt E self url : sat extends (fetch_attempt E self url).
Proof. unfold fetch_attempt, request, raise_for_status. ext_solve. Qed.

Lemma ext_fetch_page_loop E self url attempt remaining :
  sat extends (fetch_page_loop E self url attempt remaining).
Proof.
  revert attempt. induction remaining as [|n IH]; intros attempt; simpl.
  - ext_solve.
  - apply ext_try_except.
    + apply ext_bind; [apply ext_fetch_attempt | intros; apply ext_ret].
    + intros _. ext_solve.
Qed.



Lemma scrape_page_fetch E self url :
  scrape_page E self url
  = (allowed <- can_fetch E self url ;;
     if negb allowed then ret denied_page
     else
       html <- fetch E self url ;;
       if not_html html then ret (failed_page url)
       else lift (extract_content E self (default "" html) url)).
Proof. reflexivity. Qed.


(** ** The policy check and the state machine of [scrape_page] *)

(** A URL that [urlparse] rejects: [can_fetch] raises before it asks for
    anything. *)
Lemma can_fetch_raise E self url w msg :
  urlparse E url = Invalid msg -> can_fetch E self url w = (Raise (ValueError msg), w).
Proof. intros Hp. unfold can_fetch, bind, lift. rewrite Hp. reflexivity. Qed.

(** On a URL that [urlparse] accepts, [can_fetch] answers what the parser
    of robots.txt answers, and [True] when that raises; it asks for
    robots.txt, dispatches no page request and leaves the rate limiter's
    timestamps alone. *)
Lemma can_fetch_verdict E self url w parsed_url :
  urlparse E url = Valid parsed_url ->
  exists w1 new,
    can_fetch E self url w
    = (Ok (match robot_file_parser
                   (robots_txt E (exchanges w) (robots_url parsed_url)).1
                   (user_agent self) url with
           | Ok allowed => allowed
           | Raise _ => true
           end), w1)
    /\ dispatches (trace w1) = dispatches (trace w)
    /\ last_request_time w1 = last_request_time w
    /\ trace w1 = (new ++ trace w)%list
    /\ ERobots (robots_url parsed_url) (clock w) ∈ new.
Proof.
  intros Hp. unfold can_fetch. unfold bind at 1, lift at 1. rewrite Hp.
  cbn [url_result].
  unfold try_except, bind, time_time, emit, exchange, lift, ret, raise, log, emit.
  cbn [clock exchanges last_request_time cache trace].
  destruct (robots_txt E (exchanges w) (robots_url parsed_url)) as [o latency].
  cbn [fst].
  destruct (robot_file_parser o (user_agent self) url) as [allowed|e].
  - eexists _, [ERobots (robots_url parsed_url) (clock w)].
    split; [reflexivity|]. split; [reflexivity|]. split; [reflexivity|].
    split; [reflexivity|]. apply elem_of_cons. left. reflexivity.
  - eexists _, [ELog Warning url; ERobots (robots_url parsed_url) (clock w)].
    split; [reflexivity|]. split; [reflexivity|]. split; [reflexivity|].
    split; [reflexivity|]. apply elem_of_cons. right. apply elem_of_cons. left. reflexivity.
Qed.

Lemma can_fetch_run E self url w parsed_url :
  urlparse E url = Valid parsed_url ->
  exists allowed w1,
    can_fetch E self url w = (Ok allowed, w1)
    /\ dispatches (trace w1) = dispatches (trace w)
    /\ last_request_time w1 = last_request_time w.
Proof.
  intros Hp. destruct (can_fetch_verdict E self url w parsed_url Hp)
    as (w1 & new & Hrun & Hd & Hl & _).
  eexists _, w1. split; [exact Hrun|]. split; [exact Hd | exact Hl].
Qed.

(** C6, as the code has it. A URL that [urlparse] rejects makes
    [scrape_page] raise at once. Otherwise [scrape_page] first asks the
    policy, which answers and dispatches nothing. Denied: the
    access-denied record, with nothing fetched. Allowed and the fetch
    returns [None] or an empty markup: the failed-to-fetch record. Allowed
    and the fetch returns a non-empty markup: what [extract_content] gives
    for it. *)
Theorem scrape_page_state_machine (E : Env) (self : WebScraper) (url : string) (w : world) :
  match urlparse E url with
  | Invalid msg => scrape_page E self url w = (Raise (ValueError msg), w)
  | Valid _ =>
      exists allowed w1,
        can_fetch E self url w = (Ok allowed, w1)
        /\ dispatches (trace w1) = dispatches (trace w)
        /\ if allowed then
             match fetch E self url w1 with
             | (Ok None, w2) => scrape_page E self url w = (Ok (failed_page url), w2)
             | (Ok (Some html), w2) =>
                 scrape_page E self url w
                 = if String.eqb html ""
                   then (Ok (failed_page url), w2)
                   else (extract_content E self html url, w2)
             | (Raise e, w2) => scrape_page E self url w = (Raise e, w2)
             end
           else scrape_page E self url w = (Ok denied_page, w1)
  end.
Proof.
  destruct (urlparse E url) as [parsed_url|e] eqn:Hp.
  - destruct (can_fetch_run E self url w parsed_url Hp) as [allowed [w1 [Hrun [Hd _]]]].
    exists allowed, w1. split; [exact Hrun|]. split; [exact Hd|].
    rewrite scrape_page_fetch, (bind_ok _ _ _ _ _ Hrun).
    destruct allowed; simpl; [|reflexivity].
    unfold bind. destruct (fetch E self url w1) as [[[html|]|e] w2]; simpl.
    + destruct (String.eqb html ""); reflexivity.
    + reflexivity.
    + reflexivity.
  - rewrite scrape_page_fetch.
    apply bind_raise, can_fetch_raise. exact Hp.
Qed.

(** C6, as stated, fails, in two ways: a fetch that succeeds with an
    empty body is not handed to the extractor, and a URL that [urlparse]
    rejects ends in none of the three states. *)
Lemma scrape_page_empty_markup_is_failure :
  let E := Example.env (Example.net_ok "") Example.robots_allow
             (Example.br_ok "") (Ok []) in
  let url := "http://e.com/" in
  (exists w1 w2,
      can_fetch E Example.scraper url (new_world 0) = (Ok true, w1)
      /\ fetch E Example.scraper url w1 = (Ok (Some ""), w2)
      /\ scrape_page E Example.scraper url (new_world 0) = (Ok (failed_page url), w2)
      /\ extract_content E Example.scraper "" url <> Ok (failed_page url))
  /\ scrape_page E Example.scraper "http://[bad" (new_world 0)
     = (Raise (ValueError "Invalid IPv6 URL"), new_world 0).
Proof.
  intros E url. split.
  - eexists _, _.
    split; [vm_compute; reflexivity|]. split; [vm_compute; reflexivity|].
    split; [vm_compute; reflexivity|]. vm_compute. discriminate.
  - vm_compute. reflexivity.
Qed.

(** ** Requests stay in the trace *)

Lemma elem_of_dispatches_extends w w' x :
  extends w w' -> x ∈ dispatches (trace w) -> x ∈ dispatches (trace w').
Proof.
  intros [[new Hnew] _] Hx. rewrite Hnew. unfold dispatches.
  rewrite omap_app. apply elem_of_app. right. exact Hx.
Qed.


(** ** The rate limiter and one attempt *)

Lemma url_netloc_ok E url parsed_url :
  urlparse E url = Valid parsed_url -> url_netloc E url = netloc parsed_url.
Proof. unfold url_netloc. intros ->. reflexivity. Qed.

(** A URL that [urlparse] rejects: the rate limiter raises, and so does
    the attempt, before anything is sent or written. *)
Lemma respect_rate_limit_raise E self url w msg :
  urlparse E url = Invalid msg ->
  respect_rate_limit E self url w = (Raise (ValueError msg), w).
Proof. intros Hp. unfold respect_rate_limit, bind, lift. rewrite Hp. reflexivity. Qed.

Lemma fetch_attempt_raise E self url w msg :
  urlparse E url = Invalid msg -> fetch_attempt E self url w = (Raise (ValueError msg), w).
Proof.
  intros Hp. unfold fetch_attempt. apply bind_raise, respect_rate_limit_raise. exact Hp.
Qed.

Lemma respect_rate_limit_run E self url w parsed_url :
  urlparse E url = Valid parsed_url ->
  respect_rate_limit E self url w = (Ok tt, after_rate_limit E self url w).
Proof.
  intros Hp.
  unfold respect_rate_limit, after_rate_limit, rate_limit_wait.
  rewrite (url_netloc_ok _ _ _ Hp). unfold bind at 1, lift. rewrite Hp.
  cbn [url_result].
  unfold bind, time_time,
    get_last_request_time, set_last_request_time, time_sleep, bind, emit, advance, ret.
  simpl. destruct (last_request_time w !! netloc parsed_url) as [t|]; simpl.
  - destruct (clock w - t <? rate_limit self); simpl; [reflexivity|].
    rewrite Z.add_0_r. destruct w; reflexivity.
  - rewrite Z.add_0_r. destruct w; reflexivity.
Qed.

Lemma request_run E url w :
  request E url w = (response_text (http_get E (exchanges w) url).1, after_request E url w).
Proof.
  unfold request, after_request, response_text, raise_for_status, bind, time_time,
    emit, exchange, raise, ret.
  simpl. destruct (http_get E (exchanges w) url) as [[status text|e] latency]; simpl.
  - destruct ((400 <=? status) && (status <? 600)); reflexivity.
  - reflexivity.
Qed.

Lemma fetch_attempt_run E self url w parsed_url :
  urlparse E url = Valid parsed_url ->
  fetch_attempt E self url w
  = (response_text (http_get E (exchanges w) url).1,
     after_request E url (after_rate_limit E self url w)).
Proof.
  intros Hp. unfold fetch_attempt.
  rewrite (bind_ok _ _ _ _ _ (respect_rate_limit_run E self url w parsed_url Hp)).
  rewrite request_run. reflexivity.
Qed.

(** ** Retries and backoff *)

Lemma attempt_fails_raise o :
  attempt_fails o = true ->
  exists e, response_text o = Raise e /\ is_request_exception e = true.
Proof.
  unfold attempt_fails. destruct (response_text o) as [text|e]; [discriminate|].
  intros He. exists e. split; [reflexivity | exact He].
Qed.


(** A URL that [urlparse] rejects: the first attempt raises out of
    [fetch_page], which has sent nothing. *)
Lemma fetch_page_loop_raise E self url attempt remaining w msg :
  urlparse E url = Invalid msg ->
  fetch_page_loop E self url attempt (S remaining) w = (Raise (ValueError msg), w).
Proof.
  intros Hp. cbn [fetch_page_loop]. unfold try_except, bind at 1.
  rewrite (fetch_attempt_raise _ _ _ _ _ Hp). reflexivity.
Qed.





(** ** Failing open *)

Lemma fetch_page_loop_dispatches E self url attempt remaining w parsed_url :
  urlparse E url = Valid parsed_url ->
  exists t, (url, t) ∈ dispatches (trace (fetch_page_loop E self url attempt (S remaining) w).2).
Proof.
  intros Hp. exists (clock (after_rate_limit E self url w)).
  cbn [fetch_page_loop]. unfold try_except at 1, bind at 1.
  rewrite (fetch_attempt_run _ _ _ _ _ Hp).
  set (w1 := after_request E url (after_rate_limit E self url w)).
  assert (Hw1 : (url, clock (after_rate_limit E self url w)) ∈ dispatches (trace w1)).
  { simpl. apply elem_of_cons. left. reflexivity. }
  destruct (response_text _) as [text|e]; [exact Hw1|].
  destruct (is_request_exception e); [|exact Hw1].
  match goal with
  | |- _ ∈ dispatches (trace (?m w1).2) =>
      assert (Hs : sat extends m) by (ext_solve; apply ext_fetch_page_loop)
  end.
  eapply elem_of_dispatches_extends; [apply Hs | exact Hw1].
Qed.

(** The fetch that [scrape_page] picks dispatches a request for the URL,
    as soon as the browser is used or there is an attempt to make. *)
Lemma fetch_dispatches E self url w parsed_url :
  urlparse E url = Valid parsed_url ->
  enable_js self = true \/ 0 < max_retries self ->
  exists t, (url, t) ∈ dispatches (trace (fetch E self url w).2).
Proof.
  intros Hp. unfold fetch. destruct (enable_js self) eqn:Hjs.
  - intros _. exists (clock w).
    unfold fetch_js_page. rewrite Hjs. cbn [negb].
    unfold bind at 1, time_time. unfold bind at 1, emit.
    match goal with
    | |- _ ∈ dispatches (trace (bind ?m ?k ?w0).2) =>
        assert (Hs : sat extends (bind m k)) by ext_solve;
        apply (elem_of_dispatches_extends w0); [apply Hs|]
    end.
    simpl. apply elem_of_cons. left. reflexivity.
  - intros [Hjs'|Hpos]; [discriminate|]. unfold fetch_page.
    destruct (Z.to_nat (max_retries self)) as [|n] eqn:Hn; [lia|].
    apply (fetch_page_loop_dispatches _ _ _ _ _ _ parsed_url Hp).
Qed.

Lemma failed_page_not_denied url : failed_page url <> denied_page.
Proof. unfold failed_page, denied_page. intros H. discriminate H. Qed.

Lemma extracted_page_not_denied E self html url page :
  extract_content E self html url = Ok page -> page <> denied_page.
Proof.
  intros Hx. destruct (extract_content_ok _ _ _ _ _ Hx) as (m & r & _ & _ & Hd & _).
  intros ->. discriminate Hd.
Qed.

(** C5, as the code has it. When reading robots.txt raises, [can_fetch]
    returns [True], and [scrape_page] goes on with the fetch: it does what
    the fetch and the extraction do from the world the policy check left,
    it does not return the access-denied record, and a request for the
    URL is dispatched as soon as the browser is used or [max_retries] is
    positive. When robots.txt is answered with an HTTP error status,
    nothing is raised: [can_fetch] returns [True] for the statuses from
    400 to 499 other than 401 and 403, and [False] for every other one,
    and [scrape_page] then returns the access-denied record without a
    request for the page. *)
Theorem robots_failure_fails_open (E : Env) (self : WebScraper) (url : string)
    (w : world) (parsed_url : ParseResult) :
  urlparse E url = Valid parsed_url ->
  let answer := (robots_txt E (exchanges w) (robots_url parsed_url)).1 in
  (forall e, answer = RobotsRaise e ->
     exists w1,
       can_fetch E self url w = (Ok true, w1)
       /\ scrape_page E self url w
          = (html <- fetch E self url ;;
             if not_html html then ret (failed_page url)
             else lift (extract_content E self (default "" html) url)) w1
       /\ (scrape_page E self url w).1 <> Ok denied_page
       /\ (enable_js self = true \/ 0 < max_retries self ->
           exists t, (url, t) ∈ dispatches (trace (scrape_page E self url w).2)))
  /\ (forall code, answer = RobotsHttpError code ->
        exists w1,
          can_fetch E self url w
          = (Ok (negb ((code =? 401) || (code =? 403)) && (400 <=? code) && (code <? 500)), w1)
          /\ (code = 401 \/ code = 403 \/ code < 400 \/ 500 <= code ->
              scrape_page E self url w = (Ok denied_page, w1)
              /\ dispatches (trace w1) = dispatches (trace w))).
Proof.
  intros Hp answer.
  destruct (can_fetch_verdict E self url w parsed_url Hp) as (w1 & new & Hcf & Hd & _).
  fold answer in Hcf. split.
  - intros e He. rewrite He in Hcf. cbn [robot_file_parser] in Hcf.
    exists w1. split; [exact Hcf|].
    assert (Heq : scrape_page E self url w
                  = (html <- fetch E self url ;;
                     if not_html html then ret (failed_page url)
                     else lift (extract_content E self (default "" html) url)) w1).
    { rewrite scrape_page_fetch, (bind_ok _ _ _ _ _ Hcf). reflexivity. }
    split; [exact Heq|]. rewrite Heq. split.
    + unfold bind. destruct (fetch E self url w1) as [[html|e'] w2]; [|discriminate].
      destruct (not_html html); simpl.
      * intros H. apply (failed_page_not_denied url). congruence.
      * unfold lift. simpl.
        destruct (extract_content E self (default "" html) url) as [page|e'] eqn:Hx;
          [|discriminate].
        intros H. apply (extracted_page_not_denied _ _ _ _ _ Hx). congruence.
    + intros Hcan. destruct (fetch_dispatches E self url w1 parsed_url Hp Hcan) as [t Ht].
      exists t. unfold bind.
      destruct (fetch E self url w1) as [[html|e'] w2]; simpl in *; [|exact Ht].
      destruct (not_html html); exact Ht.
  - intros code He. rewrite He in Hcf. cbn [robot_file_parser] in Hcf.
    exists w1. split.
    + rewrite Hcf. do 2 f_equal.
      destruct ((code =? 401) || (code =? 403)); reflexivity.
    + intros Hcode.
      assert (Hv : (if (code =? 401) || (code =? 403) then false
                    else (400 <=? code) && (code <? 500)) = false).
      { destruct (Z.eqb_spec code 401); [reflexivity|].
        destruct (Z.eqb_spec code 403); [reflexivity|]. cbn [orb].
        destruct (Z.leb_spec 400 code); [|reflexivity].
        destruct (Z.ltb_spec code 500); [lia | reflexivity]. }
      rewrite Hv in Hcf. split; [|exact Hd].
      rewrite scrape_page_fetch, (bind_ok _ _ _ _ _ Hcf). reflexivity.
Qed.

(** C5, as stated, fails: a robots.txt that the server answers with 503
    is a retrieval failure, yet nothing is raised, [can_fetch] returns
    [False], and [scrape_page] returns the access-denied record without
    asking for the page. *)
Lemma robots_server_error_denies :
  let E := Example.env (Example.net_ok Example.html_long) (Example.robots_status 503)
             (Example.br_ok "") (Ok []) in
  let url := "http://e.com/page" in
  let run := scrape_page E Example.scraper url (new_world 0) in
  (robots_txt E 0 "http://e.com/robots.txt").1 = RobotsHttpError 503
  /\ (can_fetch E Example.scraper url (new_world 0)).1 = Ok false
  /\ run.1 = Ok denied_page
  /\ dispatches (trace run.2) = [].
Proof.
  intros E url run. split; [reflexivity|]. split; [vm_compute; reflexivity|].
  split; vm_compute; reflexivity.
Qed.

(** C5 on a site whose robots.txt cannot be reached. *)
Lemma robots_failure_fails_open_witness :
  let E := Example.env (Example.net_ok Example.html_long) Example.robots_down
             (Example.br_ok "") (Ok []) in
  let url := "http://e.com/page" in
  (can_fetch E Example.scraper url (new_world 0)).1 = Ok true
  /\ (scrape_page E Example.scraper url (new_world 0)).1 <> Ok denied_page
  /\ exists t, (url, t) ∈ dispatches (trace (scrape_page E Example.scraper url (new_world 0)).2).
Proof.
  intros E url.
  destruct (robots_failure_fails_open E Example.scraper url (new_world 0)
              {| scheme := "http"; netloc := "e.com" |} eq_refl) as [H _].
  destruct (H (URLError "unreachable") eq_refl) as [w1 [Hcf [_ [Hnd Hd]]]].
  split; [rewrite Hcf; reflexivity|]. split; [exact Hnd|].
  apply Hd. right. simpl. lia.
Defined.

(** ** The combined pipeline *)












(** ** One failing URL does not stop the batch *)














(** ** Rate limiting *)

Lemma quiet_refl w : quiet w w.
Proof. repeat split; lia. Qed.

Lemma quiet_trans w1 w2 w3 : quiet w1 w2 -> quiet w2 w3 -> quiet w1 w3.
Proof. intros [H1 [H2 H3]] [H4 [H5 H6]]. repeat split; [congruence | congruence | lia]. Qed.

Lemma quiet_keeps_rate E gap w w' : quiet w w' -> keeps_rate E gap w w'.
Proof.
  intros [Hl [Hg Hc]] [I1 [I2 [I3 I4]]]. unfold rate_inv. rewrite Hl, Hg.
  split; [|split; [|split]; assumption].
  intros d t Hd. specialize (I1 d t Hd). lia.
Qed.

Lemma keeps_rate_refl E gap w : keeps_rate E gap w w.
Proof. intros H. exact H. Qed.

Lemma keeps_rate_trans E gap w1 w2 w3 :
  keeps_rate E gap w1 w2 -> keeps_rate E gap w2 w3 -> keeps_rate E gap w1 w3.
Proof. intros H1 H2 H. exact (H2 (H1 H)). Qed.

Lemma quiet_emit e : get_request e = None -> sat quiet (emit e).
Proof.
  intros He w. repeat split; simpl; [|lia].
  unfold get_requests. cbn [omap list_omap]. rewrite He. reflexivity.
Qed.

Lemma quiet_advance d : 0 <= d -> sat quiet (advance d).
Proof. intros Hd w. repeat split; simpl. lia. Qed.

Lemma quiet_exchange {A} (oracle : nat -> A * nat) : sat quiet (exchange oracle).
Proof.
  intros w. unfold exchange. destruct (oracle (exchanges w)) as [a latency].
  repeat split; simpl. lia.
Qed.

Lemma quiet_bind {A B} (m : M A) (k : A -> M B) :
  sat quiet m -> (forall a, sat quiet (k a)) -> sat quiet (bind m k).
Proof. apply sat_bind, quiet_trans. Qed.

Lemma quiet_try_except {A} (m : M A) catches (h : exn -> M A) :
  sat quiet m -> (forall e, sat quiet (h e)) -> sat quiet (try_except m catches h).
Proof. apply sat_try_except, quiet_trans. Qed.

Lemma quiet_time_sleep site d : sat quiet (time_sleep site d).
Proof.
  unfold time_sleep. apply quiet_bind; [apply quiet_emit; reflexivity|].
  intros _. apply quiet_advance. lia.
Qed.

Lemma quiet_log lvl s : sat quiet (log lvl s).
Proof. apply quiet_emit. reflexivity. Qed.

(** The policy check and the browser send no [requests.get] and write no
    timestamp. *)
Lemma quiet_can_fetch E self url : sat quiet (can_fetch E self url).
Proof.
  unfold can_fetch. apply quiet_bind; [apply sat_lift, quiet_refl|]. intros parsed_url.
  apply quiet_try_except.
  - apply quiet_bind; [apply sat_time_time, quiet_refl|]. intros t.
    apply quiet_bind; [apply quiet_emit; reflexivity|]. intros _.
    apply quiet_bind; [apply quiet_exchange|]. intros o.
    apply sat_lift, quiet_refl.
  - intros _. apply quiet_bind; [apply quiet_log|]. intros _. apply sat_ret, quiet_refl.
Qed.

Lemma quiet_fetch_js_page E self url : sat quiet (fetch_js_page E self url).
Proof.
  unfold fetch_js_page. destruct (negb (enable_js self)).
  - apply quiet_bind; [apply quiet_log|]. intros _. apply sat_ret, quiet_refl.
  - apply quiet_bind; [apply sat_time_time, quiet_refl|]. intros t.
    apply quiet_bind; [apply quiet_emit; reflexivity|]. intros _.
    apply quiet_bind; [apply quiet_exchange|]. intros [e|e|html].
    + apply sat_raise, quiet_refl.
    + apply quiet_bind; [apply quiet_log|]. intros _. apply sat_ret, quiet_refl.
    + apply sat_ret, quiet_refl.
Qed.

(** [respect_rate_limit] returns no earlier than [rate_limit] seconds
    after the last timestamp of the domain, stamps the domain with the
    time it returns at, and leaves the other domains alone; a domain
    without a timestamp does not wait. *)
Lemma after_rate_limit_spec E self url w :
  let w' := after_rate_limit E self url w in
  let domain := url_netloc E url in
  clock w <= clock w'
  /\ (forall ts, last_request_time w !! domain = Some ts -> ts + rate_limit self <= clock w')
  /\ last_request_time w' = <[domain := clock w']> (last_request_time w)
  /\ (last_request_time w !! domain = None -> clock w' = clock w)
  /\ get_requests (trace w') = get_requests (trace w).
Proof.
  unfold after_rate_limit, rate_limit_wait. cbv zeta.
  destruct (last_request_time w !! url_netloc E url) as [t|]; cbn [clock last_request_time trace].
  - destruct (Z.ltb_spec (clock w - t) (rate_limit self)) as [Hlt|Hge];
      cbv beta iota;
      (split; [lia|]); (split; [intros ts Hts; injection Hts as <-; lia|]);
      (split; [reflexivity|]); (split; [discriminate | reflexivity]).
  - split; [lia|]. split; [discriminate|]. split; [reflexivity|].
    split; [intros _; lia | reflexivity].
Qed.

Lemma rate_inv_fetch_attempt E self url w parsed_url :
  urlparse E url = Valid parsed_url ->
  rate_inv E (rate_limit self) w ->
  rate_inv E (rate_limit self) (after_request E url (after_rate_limit E self url w)).
Proof.
  intros Hp [I1 [I2 [I3 I4]]].
  pose proof (after_rate_limit_spec E self url w) as Hspec. cbv zeta in Hspec.
  remember (after_rate_limit E self url w) as w0 eqn:Hw0. clear Hw0.
  destruct Hspec as [Hc [Hgap [Hl [_ Hg]]]].
  unfold rate_inv, after_request. cbn [clock last_request_time trace].
  assert (Hreq : get_requests (EGet url (clock w0) :: trace w0)
                 = (url, clock w0) :: get_requests (trace w)).
  { unfold get_requests in *. cbn [omap list_omap get_request]. rewrite Hg. reflexivity. }
  rewrite Hreq, Hl. split; [|split; [|split]].
  - intros d t Hd. destruct (decide (url_netloc E url = d)) as [<-|Hne].
    + rewrite lookup_insert_eq in Hd. injection Hd as Ht. lia.
    + rewrite lookup_insert_ne in Hd by exact Hne. specialize (I1 d t Hd). lia.
  - intros url' t' Hin. apply elem_of_cons in Hin as [[= -> ->]|Hin].
    + exists (clock w0). rewrite lookup_insert_eq. split; [reflexivity | lia].
    + destruct (I2 url' t' Hin) as [ts [Hts Hle]].
      destruct (decide (url_netloc E url = url_netloc E url')) as [Heq|Hne].
      * rewrite Heq, lookup_insert_eq. exists (clock w0). split; [reflexivity|].
        specialize (I1 _ _ Hts). lia.
      * rewrite lookup_insert_ne by exact Hne. exists ts. split; assumption.
  - cbn [separated]. split; [|exact I3].
    intros url' t' Hin Heq. destruct (I2 url' t' Hin) as [ts [Hts Hle]].
    rewrite Heq in Hts. specialize (Hgap ts Hts). lia.
  - intros url' t' Hin. apply elem_of_cons in Hin as [[= -> ->]|Hin].
    + eauto.
    + exact (I4 url' t' Hin).
Qed.

Lemma keeps_rate_bind E gap {A B} (m : M A) (k : A -> M B) :
  sat (keeps_rate E gap) m -> (forall a, sat (keeps_rate E gap) (k a)) ->
  sat (keeps_rate E gap) (bind m k).
Proof. apply sat_bind, keeps_rate_trans. Qed.

Lemma keeps_rate_quiet E gap {A} (m : M A) : sat quiet m -> sat (keeps_rate E gap) m.
Proof. intros H w. apply quiet_keeps_rate, H. Qed.

Lemma keeps_rate_fetch_attempt E self url :
  sat (keeps_rate E (rate_limit self)) (fetch_attempt E self url).
Proof.
  intros w. destruct (urlparse E url) as [parsed_url|e] eqn:Hp.
  - rewrite (fetch_attempt_run _ _ _ _ _ Hp). cbn [snd]. intros H.
    apply (rate_inv_fetch_attempt _ _ _ _ _ Hp). exact H.
  - rewrite (fetch_attempt_raise _ _ _ _ _ Hp). apply keeps_rate_refl.
Qed.

Lemma keeps_rate_fetch_page_loop E self url attempt remaining :
  sat (keeps_rate E (rate_limit self)) (fetch_page_loop E self url attempt remaining).
Proof.
  revert attempt. induction remaining as [|n IH]; intros attempt; cbn [fetch_page_loop].
  - apply keeps_rate_quiet, quiet_bind; [apply quiet_log|].
    intros _. apply sat_ret, quiet_refl.
  - apply sat_try_except; [apply keeps_rate_trans | |].
    + apply keeps_rate_bind; [apply keeps_rate_fetch_attempt|].
      intros text. apply sat_ret, keeps_rate_refl.
    + intros _. apply keeps_rate_bind; [apply keeps_rate_quiet, quiet_log|].
      intros _. apply keeps_rate_bind; [apply keeps_rate_quiet, quiet_time_sleep|].
      intros _. apply IH.
Qed.

Lemma keeps_rate_scrape_page E self url :
  sat (keeps_rate E (rate_limit self)) (scrape_page E self url).
Proof.
  rewrite scrape_page_fetch.
  apply keeps_rate_bind; [apply keeps_rate_quiet, quiet_can_fetch|]. intros allowed.
  destruct allowed; cbn [negb]; [|apply sat_ret, keeps_rate_refl].
  apply keeps_rate_bind.
  - unfold fetch, fetch_page. destruct (enable_js self).
    + apply keeps_rate_quiet, quiet_fetch_js_page.
    + apply keeps_rate_fetch_page_loop.
  - intros html. destruct (not_html html).
    + apply sat_ret, keeps_rate_refl.
    + apply sat_lift, keeps_rate_refl.
Qed.

Lemma keeps_rate_scrape_multiple_pages_loop E self urls results :
  sat (keeps_rate E (rate_limit self)) (scrape_multiple_pages_loop E self urls results).
Proof.
  revert results. induction urls as [|url urls IH]; intros results;
    cbn [scrape_multiple_pages_loop].
  - apply sat_ret, keeps_rate_refl.
  - apply keeps_rate_bind; [apply keeps_rate_quiet, quiet_log|]. intros _.
    apply keeps_rate_bind; [apply keeps_rate_scrape_page|]. intros page. apply IH.
Qed.

Lemma rate_inv_new_world E gap t0 : rate_inv E gap (new_world t0).
Proof.
  unfold rate_inv, new_world. cbn [clock last_request_time trace].
  split; [|split; [|split]].
  - intros d t H. rewrite lookup_empty in H. discriminate.
  - intros url t H. inversion H.
  - exact I.
  - intros url t H. inversion H.
Qed.

(** C4, as the code has it. Any two requests that [fetch_page] sends to
    one domain are at least [rate_limit] seconds apart, over a whole
    batch and its retries; each of them is for a URL that [urlparse]
    accepts. On such a URL [respect_rate_limit] returns no earlier than
    [rate_limit] seconds after the domain's last timestamp and stamps the
    domain with the time it returns at; it reads and writes the entry of
    that domain only, and a domain without an entry does not wait. Every
    attempt of [fetch_page] stamps the domain with the time its request
    is sent at. On a URL that [urlparse] rejects, the attempt raises
    before anything is sent or stamped. *)
Theorem static_requests_rate_limited (E : Env) (self : WebScraper)
    (urls : list string) (t0 : Z) (url : string) (w : world) :
  (separated (url_netloc E) (rate_limit self)
     (get_requests (trace (scrape_multiple_pages E self urls (new_world t0)).2))
   /\ forall url' t,
       (url', t) ∈ get_requests (trace (scrape_multiple_pages E self urls (new_world t0)).2) ->
       exists parsed_url,
         urlparse E url' = Valid parsed_url /\ url_netloc E url' = netloc parsed_url)
  /\ (forall parsed_url,
      urlparse E url = Valid parsed_url ->
      let w' := (respect_rate_limit E self url w).2 in
      let domain := netloc parsed_url in
      (respect_rate_limit E self url w).1 = Ok tt
      /\ clock w <= clock w'
      /\ (forall ts, last_request_time w !! domain = Some ts ->
                     ts + rate_limit self <= clock w')
      /\ last_request_time w' !! domain = Some (clock w')
      /\ (forall d, d <> domain -> last_request_time w' !! d = last_request_time w !! d)
      /\ (last_request_time w !! domain = None -> clock w' = clock w)
      /\ (forall w0, last_request_time w0 !! domain = last_request_time w !! domain ->
                     clock w0 = clock w ->
                     clock (respect_rate_limit E self url w0).2 = clock w'))
  /\ (forall parsed_url,
      urlparse E url = Valid parsed_url ->
      let w' := (fetch_attempt E self url w).2 in
      exists t,
        get_requests (trace w') = (url, t) :: get_requests (trace w)
        /\ last_request_time w' !! netloc parsed_url = Some t)
  /\ (forall msg, urlparse E url = Invalid msg ->
                   fetch_attempt E self url w = (Raise (ValueError msg), w)).
Proof.
  split; [|split; [|split]].
  - destruct (keeps_rate_scrape_multiple_pages_loop E self urls ∅ (new_world t0)
                (rate_inv_new_world E (rate_limit self) t0)) as [_ [_ [H H4]]].
    split; [exact H|]. intros url' t Hin. destruct (H4 url' t Hin) as [parsed_url Hp].
    exists parsed_url. split; [exact Hp | exact (url_netloc_ok _ _ _ Hp)].
  - intros parsed_url Hp. cbv zeta.
    rewrite (respect_rate_limit_run _ _ _ _ _ Hp). cbn [fst snd].
    pose proof (after_rate_limit_spec E self url w) as Hspec. cbv zeta in Hspec.
    rewrite (url_netloc_ok _ _ _ Hp) in Hspec.
    destruct Hspec as [Hc [Hgap [Hl [Hnone _]]]].
    split; [reflexivity|]. split; [exact Hc|]. split; [exact Hgap|].
    split; [rewrite Hl; apply lookup_insert_eq|].
    split; [intros d Hd; rewrite Hl; apply lookup_insert_ne; congruence|].
    split; [exact Hnone|].
    intros w0 Hsame Hclock. rewrite (respect_rate_limit_run _ _ _ _ _ Hp). cbn [snd].
    unfold after_rate_limit. cbn [clock]. rewrite (url_netloc_ok _ _ _ Hp), Hsame, Hclock.
    reflexivity.
  - intros parsed_url Hp. cbv zeta. rewrite (fetch_attempt_run _ _ _ _ _ Hp). cbn [snd].
    pose proof (after_rate_limit_spec E self url w) as Hspec. cbv zeta in Hspec.
    rewrite (url_netloc_ok _ _ _ Hp) in Hspec.
    destruct Hspec as [_ [_ [Hl [_ Hg]]]].
    exists (clock (after_rate_limit E self url w)). split.
    + unfold after_request. cbn [trace]. unfold get_requests in *.
      cbn [omap list_omap get_request]. rewrite Hg. reflexivity.
    + unfold after_request. cbn [last_request_time]. rewrite Hl.
      apply lookup_insert_eq.
  - intros msg Hp. apply fetch_attempt_raise. exact Hp.
Qed.

(** C4, as stated, fails: with the browser enabled, two pages of one
    domain are loaded at the same second, and no timestamp is written. *)
Lemma browser_requests_not_rate_limited :
  let E := Example.env Example.net_down Example.robots_allow
             (Example.br_ok Example.html_long) (Ok []) in
  let w' := (scrape_multiple_pages E Example.scraper_js
               ["http://e.com/a"; "http://e.com/b"] (new_world 0)).2 in
  dispatches (trace w') = [("http://e.com/b", 0); ("http://e.com/a", 0)]
  /\ url_netloc E "http://e.com/a" = url_netloc E "http://e.com/b"
  /\ ~ separated (url_netloc E) (rate_limit Example.scraper_js) (dispatches (trace w'))
  /\ last_request_time w' = ∅.
Proof.
  intros E w'.
  assert (Hd : dispatches (trace w') = [("http://e.com/b", 0); ("http://e.com/a", 0)])
    by (vm_compute; reflexivity).
  split; [exact Hd|]. split; [reflexivity|]. split.
  - rewrite Hd. intros [H _].
    specialize (H "http://e.com/a" 0 ltac:(apply elem_of_cons; left; reflexivity) eq_refl).
    vm_compute in H. apply H. reflexivity.
  - vm_compute. reflexivity.
Qed.

(** ** The pipeline on examples *)

(** A page that robots.txt denies: the access-denied record, and not a
    single request for the page. *)
Example scrape_page_denied :
  let E := Example.env (Example.net_ok Example.html_long) Example.robots_deny
             (Example.br_ok "") (Ok []) in
  let run := scrape_page E Example.scraper "http://e.com/page" (new_world 0) in
  run.1 = Ok denied_page /\ dispatches (trace run.2) = [].
Proof. intros E run. split; vm_compute; reflexivity. Qed.

(** Three results, all scraped: three records of 90 words each (the
    summary of the long page), stored under the query; asking again
    returns them from the cache, with no new exchange. *)
Example search_and_scrape_twice :
  let E := Example.env (Example.net_ok Example.html_long) Example.robots_allow
             (Example.br_ok "") (Ok Example.found3) in
  let self := new_SearchAndScrape false 5 in
  let first := search_and_scrape E self "q" true None None None (new_world 0) in
  let second := search_and_scrape E self "q" true None None None first.2 in
  (word_count <$> default [] (match first.1 with Ok l => Some l | Raise _ => None end))
  = [90; 90; 90]
  /\ cache first.2 !! "q" = match first.1 with Ok l => Some l | Raise _ => None end
  /\ second.1 = first.1
  /\ exchanges second.2 = exchanges first.2.
Proof.
  intros E self first second.
  split; [vm_compute; reflexivity|].
  split; [vm_compute; reflexivity|].
  split; vm_compute; reflexivity.
Qed.

(** A page that quotes the sentinel is dropped from the combined output
    although robots.txt allowed it and it was fetched and extracted. *)
Example quoting_page_is_skipped :
  let E := Example.env (Example.net_ok Example.html_quote) Example.robots_allow
             (Example.br_ok "") (Ok [Example.raw "Q" "http://e.com/q" "quote"]) in
  let self := new_SearchAndScrape false 5 in
  (search_and_scrape E self "q" true None None None (new_world 0)).1 = Ok []
  /\ (word_count <$> default []
        (match (search_and_scrape E self "q" false None None None (new_world 0)).1 with
         | Ok l => Some l | Raise _ => None end)) = [0].
Proof. intros E self. split; vm_compute; reflexivity. Qed.

(** * Further properties of the code *)

(** ** Strings: splitting and joining *)

Lemma append_assoc (a b c : string) : ((a ++ b) ++ c)%string = (a ++ (b ++ c))%string.
Proof.
  induction a as [|x a IH]; [reflexivity|].
  rewrite !append_cons, IH. reflexivity.
Qed.

Lemma append_empty_r (a : string) : (a ++ "")%string = a.
Proof. induction a as [|x a IH]; [reflexivity|]. rewrite append_cons, IH. reflexivity. Qed.

Lemma append_length (a b : string) :
  String.length (a ++ b)%string = (String.length a + String.length b)%nat.
Proof.
  induction a as [|x a IH]; [reflexivity|].
  rewrite append_cons. simpl. rewrite IH. reflexivity.
Qed.

Lemma rev_acc_spec (s acc : string) :
  PyStr.rev_acc s acc = (PyStr.rev s ++ acc)%string.
Proof.
  unfold PyStr.rev. revert acc. induction s as [|c s IH]; intros acc; [reflexivity|].
  simpl. rewrite IH, (IH (String c "")), append_assoc. reflexivity.
Qed.

Lemma rev_cons (c : ascii) (s : string) :
  PyStr.rev (String c s) = (PyStr.rev s ++ String c "")%string.
Proof. unfold PyStr.rev at 1. simpl. apply rev_acc_spec. Qed.

Lemma str_drop_append (a b : string) : str_drop (String.length a) (a ++ b)%string = b.
Proof. induction a as [|x a IH]; [reflexivity|]. rewrite append_cons. simpl. exact IH. Qed.

Lemma split_on_go_nonempty sep k cur s : PyStr.split_on_go sep k cur s <> [].
Proof.
  revert k cur. induction s as [|c s IH]; intros k cur; simpl; [discriminate|].
  destruct k; [|apply IH].
  destruct (PyStr.starts_with sep (String c s)); [discriminate | apply IH].
Qed.

Lemma join_cons sep x l : l <> [] -> PyStr.join sep (x :: l) = (x ++ sep ++ PyStr.join sep l)%string.
Proof. destruct l; [congruence | reflexivity]. Qed.

(** Joining the pieces with the separator gives the string back. *)
Lemma join_split_on_go sep s :
  sep <> "" ->
  forall k cur,
    PyStr.join sep (PyStr.split_on_go sep k cur s) = (PyStr.rev cur ++ str_drop k s)%string.
Proof.
  intros Hsep. induction s as [|c s IH]; intros k cur.
  - simpl. destruct k; simpl; rewrite append_empty_r; reflexivity.
  - cbn [PyStr.split_on_go]. destruct k as [|k].
    + destruct (PyStr.starts_with sep (String c s)) eqn:Hst.
      * rewrite join_cons by apply split_on_go_nonempty. rewrite IH.
        apply starts_with_spec in Hst as [post Hpost].
        destruct sep as [|a sep']; [congruence|].
        rewrite append_cons in Hpost. injection Hpost as -> ->.
        replace (String.length (String a sep') - 1)%nat with (String.length sep')
          by (simpl; lia).
        rewrite str_drop_append.
        cbn [str_drop]. change (PyStr.rev "") with "". rewrite append_empty.
        rewrite append_cons. reflexivity.
      * rewrite IH, rev_cons, append_assoc. reflexivity.
    + rewrite IH. reflexivity.
Qed.

Lemma join_split_on sep s : sep <> "" -> PyStr.join sep (PyStr.split_on sep s) = s.
Proof.
  intros Hsep. unfold PyStr.split_on. rewrite join_split_on_go by exact Hsep. reflexivity.
Qed.

Lemma join_app sep l1 l2 :
  l1 <> [] -> l2 <> [] ->
  PyStr.join sep (l1 ++ l2) = (PyStr.join sep l1 ++ sep ++ PyStr.join sep l2)%string.
Proof.
  intros H1 H2. induction l1 as [|x l1 IH]; [congruence|].
  destruct l1 as [|y l1].
  - change ([x] ++ l2)%list with (x :: l2). rewrite join_cons by exact H2. reflexivity.
  - rewrite <- app_comm_cons. rewrite join_cons by done.
    rewrite IH by done. rewrite (join_cons sep x (y :: l1)) by done.
    rewrite !append_assoc. reflexivity.
Qed.

(** X3: splitting a text on [". "] and joining the pieces with [". "]
    gives the text back, so [summarize_text] only ever cuts: a text of
    more than 3 sentences becomes its part before the third [". "]
    followed by ["..."], any other text is returned as it is, and the
    result is at most one character longer than the text. *)
Theorem summarize_text_cuts_at_third_sentence (text : string) :
  let sentences := PyStr.split_on ". " text in
  PyStr.join ". " sentences = text
  /\ (if (3 <? length sentences)%nat
      then exists prefix rest,
          text = (prefix ++ ". " ++ rest)%string
          /\ prefix = PyStr.join ". " (take 3 sentences)
          /\ summarize_text text = (prefix ++ "...")%string
      else summarize_text text = text)
  /\ (String.length (summarize_text text) <= String.length text + 1)%nat.
Proof.
  intros sentences.
  assert (Hjoin : PyStr.join ". " sentences = text) by (apply join_split_on; discriminate).
  split; [exact Hjoin|].
  unfold summarize_text. fold sentences.
  destruct (Nat.ltb_spec 3 (length sentences)) as [Hlt|Hge].
  - assert (Hcut : text = (PyStr.join ". " (take 3 sentences) ++ ". "
                           ++ PyStr.join ". " (drop 3 sentences))%string).
    { rewrite <- Hjoin at 1. rewrite <- (take_drop 3 sentences) at 1.
      apply join_app.
      - destruct sentences; [simpl in Hlt; lia | discriminate].
      - destruct sentences as [|s1 [|s2 [|s3 [|s4 l]]]]; simpl in Hlt; try lia.
        discriminate. }
    split.
    + exists (PyStr.join ". " (take 3 sentences)), (PyStr.join ". " (drop 3 sentences)).
      split; [exact Hcut|]. split; reflexivity.
    + pose proof (f_equal String.length Hcut) as Hlen.
      rewrite !append_length in Hlen. rewrite append_length.
      cbn [String.length] in *. lia.
  - split; [reflexivity | lia].
Qed.

(** ** [fetch_page]: the first attempt that does not fail *)

(** One failed attempt and the handler, with the exchange counter. *)
Lemma fetch_page_loop_fail E self url attempt remaining w parsed_url :
  urlparse E url = Valid parsed_url ->
  attempt_fails (http_get E (exchanges w) url).1 = true ->
  exists new w1,
    fetch_page_loop E self url attempt (S remaining) w
    = fetch_page_loop E self url (S attempt) remaining w1
    /\ trace w1 = (new ++ trace w)%list
    /\ omap fetch_shape (rev new) = failed_attempt_steps E url attempt
    /\ exchanges w1 = S (exchanges w)
    /\ (get_requests new).*1 = [url].
Proof.
  intros Hp Hfail. apply attempt_fails_raise in Hfail as [e [Hresp He]].
  pose (wait := rate_limit_wait self (last_request_time w !! url_netloc E url) (clock w)).
  exists (ESleep Backoff (2 ^ Z.of_nat attempt) :: ELog Warning url
          :: EGet url (clock (after_rate_limit E self url w))
          :: EStamp (url_netloc E url) (clock (after_rate_limit E self url w))
          :: match wait with Some d => [ESleep RateLimitWait d] | None => [] end).
  eexists. split; [|split; [|split; [|split]]].
  - cbn [fetch_page_loop]. unfold try_except at 1, bind at 1.
    rewrite (fetch_attempt_run _ _ _ _ _ Hp), Hresp, He.
    unfold bind at 1, log, emit. unfold bind at 1, time_sleep, bind, emit, advance.
    reflexivity.
  - simpl. reflexivity.
  - unfold failed_attempt_steps. destruct wait; reflexivity.
  - reflexivity.
  - destruct wait; reflexivity.
Qed.

(** An attempt that does not end in a [RequestException] ends the loop:
    with the body, or with the exception. *)
Lemma fetch_page_loop_last E self url attempt remaining w parsed_url :
  urlparse E url = Valid parsed_url ->
  attempt_fails (http_get E (exchanges w) url).1 = false ->
  exists new w1,
    fetch_page_loop E self url attempt (S remaining) w
    = (match response_text (http_get E (exchanges w) url).1 with
       | Ok text => Ok (Some text)
       | Raise e => Raise e
       end, w1)
    /\ trace w1 = (new ++ trace w)%list
    /\ omap fetch_shape (rev new) = [SStamp (url_netloc E url); SGet url]
    /\ exchanges w1 = S (exchanges w)
    /\ (get_requests new).*1 = [url].
Proof.
  intros Hp Hok.
  pose (wait := rate_limit_wait self (last_request_time w !! url_netloc E url) (clock w)).
  exists (EGet url (clock (after_rate_limit E self url w))
          :: EStamp (url_netloc E url) (clock (after_rate_limit E self url w))
          :: match wait with Some d => [ESleep RateLimitWait d] | None => [] end).
  exists (after_request E url (after_rate_limit E self url w)).
  split; [|split; [|split; [|split]]].
  - cbn [fetch_page_loop]. unfold try_except at 1, bind at 1.
    rewrite (fetch_attempt_run _ _ _ _ _ Hp). unfold attempt_fails in Hok.
    destruct (response_text (http_get E (exchanges w) url).1) as [text|e].
    + reflexivity.
    + rewrite Hok. reflexivity.
  - simpl. reflexivity.
  - destruct wait; reflexivity.
  - reflexivity.
  - destruct wait; reflexivity.
Qed.

(** X1: [fetch_page] stops at the first attempt that does not end in a
    [RequestException]. On a URL that [urlparse] accepts, when the
    attempts before the one numbered [k] fail and that one does not, and
    [k < max_retries], it returns the body of that attempt, or raises the
    exception of that attempt when it is of another class, after [k + 1]
    stamped requests and the backoff sleeps [1, 2, ..., 2 ^ (k - 1)]. *)
Theorem fetch_page_first_success (E : Env) (self : WebScraper) (url : string)
    (w : world) (k : nat) (parsed_url : ParseResult) :
  urlparse E url = Valid parsed_url ->
  (Z.of_nat k < max_retries self) ->
  (forall i, (i < k)%nat -> attempt_fails (http_get E (exchanges w + i)%nat url).1 = true) ->
  attempt_fails (http_get E (exchanges w + k)%nat url).1 = false ->
  exists new w',
    fetch_page E self url w
    = (match response_text (http_get E (exchanges w + k)%nat url).1 with
       | Ok text => Ok (Some text)
       | Raise e => Raise e
       end, w')
    /\ trace w' = (new ++ trace w)%list
    /\ omap fetch_shape (rev new)
       = (flat_map (fun attempt =>
                      [SStamp (netloc parsed_url); SGet url; SBackoff (2 ^ Z.of_nat attempt)])
            (seq 0 k)
          ++ [SStamp (netloc parsed_url); SGet url])%list
    /\ exchanges w' = (exchanges w + k + 1)%nat.
Proof.
  intros Hp Hk Hfail Hlast. unfold fetch_page.
  rewrite <- (url_netloc_ok _ _ _ Hp).
  assert (Hgen : forall k attempt remaining w,
             (k < remaining)%nat ->
             (forall i, (i < k)%nat ->
                        attempt_fails (http_get E (exchanges w + i)%nat url).1 = true) ->
             attempt_fails (http_get E (exchanges w + k)%nat url).1 = false ->
             exists new w',
               fetch_page_loop E self url attempt remaining w
               = (match response_text (http_get E (exchanges w + k)%nat url).1 with
                  | Ok text => Ok (Some text)
                  | Raise e => Raise e
                  end, w')
               /\ trace w' = (new ++ trace w)%list
               /\ omap fetch_shape (rev new)
                  = (flat_map (failed_attempt_steps E url) (seq attempt k)
                     ++ [SStamp (url_netloc E url); SGet url])%list
               /\ exchanges w' = (exchanges w + k + 1)%nat).
  { clear - Hp. induction k as [|k IH]; intros attempt remaining w Hlt Hfail Hlast.
    - destruct remaining as [|n]; [lia|].
      rewrite Nat.add_0_r in *.
      destruct (fetch_page_loop_last E self url attempt n w parsed_url Hp Hlast)
        as [new [w1 [Hrun [Htr [Hsh [Hex _]]]]]].
      exists new, w1. repeat split; [exact Hrun | exact Htr | exact Hsh | lia].
    - destruct remaining as [|n]; [lia|].
      assert (H0 : attempt_fails (http_get E (exchanges w) url).1 = true).
      { specialize (Hfail 0%nat ltac:(lia)). rewrite Nat.add_0_r in Hfail. exact Hfail. }
      destruct (fetch_page_loop_fail E self url attempt n w parsed_url Hp H0)
        as [new1 [w1 [Hstep [Htr1 [Hsh1 [Hex1 _]]]]]].
      destruct (IH (S attempt) n w1) as [new2 [w' [Hrun [Htr2 [Hsh2 Hex2]]]]].
      + lia.
      + intros i Hi. rewrite Hex1.
        replace (S (exchanges w) + i)%nat with (exchanges w + S i)%nat by lia.
        apply Hfail. lia.
      + rewrite Hex1.
        replace (S (exchanges w) + k)%nat with (exchanges w + S k)%nat by lia.
        exact Hlast.
      + exists (new2 ++ new1)%list, w'. split; [|split; [|split]].
        * rewrite Hstep, Hrun, Hex1.
          replace (S (exchanges w) + k)%nat with (exchanges w + S k)%nat by lia.
          reflexivity.
        * rewrite Htr2, Htr1. apply app_assoc.
        * rewrite rev_app_distr, omap_app, Hsh1, Hsh2. cbn [seq flat_map].
          rewrite <- app_assoc. reflexivity.
        * lia. }
  apply (Hgen k 0%nat (Z.to_nat (max_retries self)) w); [lia | exact Hfail | exact Hlast].
Qed.

(** X2: whatever the network does, [fetch_page] sends at most
    [max_retries] requests, all for the URL it was given, and makes no
    other exchange; it returns [None] only after exactly [max_retries]
    requests (none at all when [max_retries] is zero or negative). *)
Theorem fetch_page_at_most_max_retries (E : Env) (self : WebScraper) (url : string)
    (w : world) :
  exists new,
    trace (fetch_page E self url w).2 = (new ++ trace w)%list
    /\ (get_requests new).*1 = repeat url (length (get_requests new))
    /\ (length (get_requests new) <= Z.to_nat (max_retries self))%nat
    /\ exchanges (fetch_page E self url w).2
       = (exchanges w + length (get_requests new))%nat
    /\ ((fetch_page E self url w).1 = Ok None ->
        length (get_requests new) = Z.to_nat (max_retries self)).
Proof.
  unfold fetch_page. generalize (Z.to_nat (max_retries self)) as remaining.
  generalize 0%nat as attempt. intros attempt remaining. revert attempt w.
  induction remaining as [|n IH]; intros attempt w.
  - exists [ELog Error url]. split; [reflexivity|]. split; [reflexivity|].
    split; [simpl; lia|]. split; [simpl; lia|]. intros _. reflexivity.
  - destruct (urlparse E url) as [parsed_url|msg] eqn:Hp.
    + destruct (attempt_fails (http_get E (exchanges w) url).1) eqn:Hf.
      * destruct (fetch_page_loop_fail E self url attempt n w parsed_url Hp Hf)
          as [new1 [w1 [Hstep [Htr1 [_ [Hex1 Hg1]]]]]].
        destruct (IH (S attempt) w1) as [new2 [Htr2 [Hg2 [Hle [Hex2 Hnone]]]]].
        exists (new2 ++ new1)%list. rewrite Hstep.
        assert (Hlen1 : length (get_requests new1) = 1%nat).
        { rewrite <- (length_fmap fst), Hg1. reflexivity. }
        assert (Hlen : length (get_requests (new2 ++ new1))
                       = S (length (get_requests new2))).
        { unfold get_requests in *. rewrite omap_app, length_app, Hlen1. lia. }
        split; [rewrite Htr2, Htr1; apply app_assoc|].
        split; [|split; [lia|split; [lia|]]].
        -- rewrite Hlen. unfold get_requests in *.
           rewrite omap_app, fmap_app, Hg1, Hg2.
           rewrite <- repeat_cons. reflexivity.
        -- intros Hres. rewrite Hlen, (Hnone Hres). reflexivity.
      * destruct (fetch_page_loop_last E self url attempt n w parsed_url Hp Hf)
          as [new1 [w1 [Hrun [Htr1 [_ [Hex1 Hg1]]]]]].
        exists new1. rewrite Hrun. cbn [fst snd].
        assert (Hlen1 : length (get_requests new1) = 1%nat).
        { rewrite <- (length_fmap fst), Hg1. reflexivity. }
        split; [exact Htr1|]. split; [rewrite Hlen1; exact Hg1|].
        split; [lia|]. split; [lia|].
        destruct (response_text (http_get E (exchanges w) url).1); discriminate.
    + rewrite (fetch_page_loop_raise _ _ _ _ _ _ _ Hp). exists []. cbn [fst snd].
      split; [reflexivity|]. split; [reflexivity|]. split; [simpl; lia|].
      split; [simpl; lia | discriminate].
Qed.

(** ** Events a computation never emits *)

Section SameEvents.

Context (P : event -> bool).

Lemma same_events_refl w : same_events P w w.
Proof. reflexivity. Qed.

Lemma same_events_trans w1 w2 w3 :
  same_events P w1 w2 -> same_events P w2 w3 -> same_events P w1 w3.
Proof. unfold same_events. congruence. Qed.

Lemma same_events_emit e : P e = false -> sat (same_events P) (emit e).
Proof. intros He w. unfold same_events. simpl. rewrite He. reflexivity. Qed.

Lemma same_events_exchange {A} (oracle : nat -> A * nat) :
  sat (same_events P) (exchange oracle).
Proof.
  intros w. unfold exchange. destruct (oracle (exchanges w)). reflexivity.
Qed.

Lemma same_events_advance d : sat (same_events P) (advance d).
Proof. intros w. reflexivity. Qed.

Lemma same_events_bind {A B} (m : M A) (k : A -> M B) :
  sat (same_events P) m -> (forall a, sat (same_events P) (k a)) ->
  sat (same_events P) (bind m k).
Proof. apply sat_bind, same_events_trans. Qed.

Lemma same_events_try_except {A} (m : M A) catches (h : exn -> M A) :
  sat (same_events P) m -> (forall e, sat (same_events P) (h e)) ->
  sat (same_events P) (try_except m catches h).
Proof. apply sat_try_except, same_events_trans. Qed.

Lemma same_events_set_last_request_time d t :
  P (EStamp d t) = false -> sat (same_events P) (set_last_request_time d t).
Proof. intros He w. unfold same_events. simpl. rewrite He. reflexivity. Qed.

End SameEvents.

(** Decomposes a goal [sat (same_events P) m] for a concrete [P]. *)
Ltac same_events_solve :=
  repeat first
    [ match goal with |- forall _, _ => intro end
    | match goal with H : context [sat (same_events _) _] |- sat (same_events _) _ => apply H end
    | apply sat_ret, same_events_refl
    | apply sat_raise, same_events_refl
    | apply sat_lift, same_events_refl
    | apply sat_time_time, same_events_refl
    | apply sat_get_last_request_time, same_events_refl
    | apply sat_get_cache, same_events_refl
    | apply same_events_emit; reflexivity
    | apply same_events_exchange
    | apply same_events_advance
    | apply same_events_set_last_request_time; reflexivity
    | apply same_events_bind | apply same_events_try_except
    | progress cbv zeta
    | match goal with
      | |- sat _ (match ?x with _ => _ end) => destruct x
      end ].

Lemma no_browser_can_fetch E self url :
  sat (same_events is_browser_load) (can_fetch E self url).
Proof. unfold can_fetch. same_events_solve. Qed.

Lemma no_browser_fetch_page_loop E self url attempt remaining :
  sat (same_events is_browser_load) (fetch_page_loop E self url attempt remaining).
Proof.
  revert attempt. induction remaining as [|n IH]; intros attempt; cbn [fetch_page_loop].
  - same_events_solve.
  - apply same_events_try_except.
    + unfold fetch_attempt, respect_rate_limit, request, raise_for_status, time_sleep.
      same_events_solve.
    + intros _. unfold time_sleep. same_events_solve.
Qed.

Lemma no_browser_scrape_page E self url :
  enable_js self = false ->
  sat (same_events is_browser_load) (scrape_page E self url).
Proof.
  intros Hjs. rewrite scrape_page_fetch.
  apply same_events_bind; [apply no_browser_can_fetch|]. intros allowed.
  destruct allowed; cbn [negb]; [|apply sat_ret, same_events_refl].
  apply same_events_bind.
  - unfold fetch, fetch_page. rewrite Hjs. apply no_browser_fetch_page_loop.
  - intros html. destruct (not_html html);
      [apply sat_ret, same_events_refl | apply sat_lift, same_events_refl].
Qed.

Lemma static_steps_can_fetch E self url :
  sat (same_events is_static_fetch_step) (can_fetch E self url).
Proof. unfold can_fetch. same_events_solve. Qed.

Lemma static_steps_fetch_js_page E self url :
  sat (same_events is_static_fetch_step) (fetch_js_page E self url).
Proof. unfold fetch_js_page. same_events_solve. Qed.

Lemma no_browser_scrape_multiple_pages_loop E self urls results :
  enable_js self = false ->
  sat (same_events is_browser_load) (scrape_multiple_pages_loop E self urls results).
Proof.
  intros Hjs. revert results. induction urls as [|url urls IH]; intros results;
    cbn [scrape_multiple_pages_loop].
  - apply sat_ret, same_events_refl.
  - apply same_events_bind; [apply same_events_emit; reflexivity|]. intros _.
    apply same_events_bind; [apply no_browser_scrape_page; exact Hjs|].
    intros page. apply IH.
Qed.

(** X7: a scraper built while Playwright cannot be imported never loads a
    page in the browser, even when script rendering was asked for: the
    flag is dropped at construction and every page goes through
    [fetch_page]. *)
Theorem without_playwright_never_browser (E : Env) (ua : string) (rl tmo retries : Z)
    (js summarize : bool) (urls : list string) (w : world) :
  let self := new_WebScraper false ua rl tmo retries js summarize in
  enable_js self = false
  /\ List.filter is_browser_load (trace (scrape_multiple_pages E self urls w).2)
     = List.filter is_browser_load (trace w).
Proof.
  intros self.
  assert (Hjs : enable_js self = false) by apply andb_false_r.
  split; [exact Hjs|].
  apply (no_browser_scrape_multiple_pages_loop E self urls ∅ Hjs w).
Qed.

(** ** The browser path *)

Lemma scrape_page_js_fetch E self url :
  enable_js self = true ->
  scrape_page E self url
  = (allowed <- can_fetch E self url ;;
     if negb allowed then ret denied_page
     else
       html <- fetch_js_page E self url ;;
       if not_html html then ret (failed_page url)
       else lift (extract_content E self (default "" html) url)).
Proof. intros Hjs. unfold scrape_page. rewrite Hjs. reflexivity. Qed.

Lemma static_steps_scrape_page E self url :
  enable_js self = true ->
  sat (same_events is_static_fetch_step) (scrape_page E self url).
Proof.
  intros Hjs. rewrite (scrape_page_js_fetch _ _ _ Hjs).
  apply same_events_bind; [apply static_steps_can_fetch|]. intros allowed.
  destruct allowed; cbn [negb]; [|apply sat_ret, same_events_refl].
  apply same_events_bind; [apply static_steps_fetch_js_page|].
  intros html. destruct (not_html html);
    [apply sat_ret, same_events_refl | apply sat_lift, same_events_refl].
Qed.

Lemma quiet_scrape_page_js E self url :
  enable_js self = true -> sat quiet (scrape_page E self url).
Proof.
  intros Hjs. rewrite (scrape_page_js_fetch _ _ _ Hjs).
  apply quiet_bind; [apply quiet_can_fetch|]. intros allowed.
  destruct allowed; cbn [negb]; [|apply sat_ret, quiet_refl].
  apply quiet_bind; [apply quiet_fetch_js_page|].
  intros html. destruct (not_html html);
    [apply sat_ret, quiet_refl | apply sat_lift, quiet_refl].
Qed.

Lemma fetch_js_page_one_load E self url w :
  (length (List.filter is_browser_load (trace (fetch_js_page E self url w).2))
   <= S (length (List.filter is_browser_load (trace w))))%nat.
Proof.
  unfold fetch_js_page. destruct (negb (enable_js self)).
  - simpl. lia.
  - unfold bind, time_time, emit, exchange, raise, ret, log, emit.
    simpl. destruct (browser E (exchanges w) url) as [[e|e|html] latency]; simpl; lia.
Qed.

(** With the browser, [scrape_page] loads the page at most once. *)
Lemma scrape_page_js_one_load E self url w :
  enable_js self = true ->
  (length (List.filter is_browser_load (trace (scrape_page E self url w).2))
   <= S (length (List.filter is_browser_load (trace w))))%nat.
Proof.
  intros Hjs. rewrite (scrape_page_js_fetch _ _ _ Hjs). unfold bind at 1.
  pose proof (no_browser_can_fetch E self url w) as Hcf. unfold same_events in Hcf.
  destruct (can_fetch E self url w) as [[allowed|e] w1]; cbn [snd] in Hcf.
  - destruct allowed; cbn [negb].
    + unfold bind. pose proof (fetch_js_page_one_load E self url w1) as Hn.
      destruct (fetch_js_page E self url w1) as [[html|e] w2]; cbn [snd] in *.
      * destruct (not_html html); unfold ret, lift; cbn [snd]; rewrite <- Hcf; exact Hn.
      * rewrite <- Hcf; exact Hn.
    + unfold ret. cbn [snd]. rewrite Hcf. lia.
  - cbn [snd]. rewrite Hcf. lia.
Qed.

Lemma scrape_multiple_pages_loop_cons E self url urls results w :
  scrape_multiple_pages_loop E self (url :: urls) results w
  = match scrape_page E self url (log Info url w).2 with
    | (Ok page, w1) => scrape_multiple_pages_loop E self urls (<[url := page]> results) w1
    | (Raise e, w1) => (Raise e, w1)
    end.
Proof. reflexivity. Qed.

Lemma no_load_can_fetch E self url u :
  sat (same_events (is_load_of u)) (can_fetch E self url).
Proof. unfold can_fetch. same_events_solve. Qed.

Lemma fetch_js_page_loads E self url u w :
  (length (List.filter (is_load_of u) (trace (fetch_js_page E self url w).2))
   <= length (List.filter (is_load_of u) (trace w))
      + (if String.eqb u url then 1 else 0))%nat.
Proof.
  unfold fetch_js_page. destruct (negb (enable_js self)).
  - simpl. lia.
  - unfold bind, time_time, emit, exchange, raise, ret, log, emit.
    cbn [clock exchanges last_request_time cache trace].
    destruct (browser E (exchanges w) url) as [[e|e|html] latency];
      cbn [snd trace List.filter is_load_of];
      destruct (String.eqb u url); cbn [length]; lia.
Qed.

(** With the browser, [scrape_page] loads no page but its own, and that
    one at most once. *)
Lemma scrape_page_js_loads E self url u w :
  enable_js self = true ->
  (length (List.filter (is_load_of u) (trace (scrape_page E self url w).2))
   <= length (List.filter (is_load_of u) (trace w))
      + (if String.eqb u url then 1 else 0))%nat.
Proof.
  intros Hjs. rewrite (scrape_page_js_fetch _ _ _ Hjs). unfold bind at 1.
  pose proof (no_load_can_fetch E self url u w) as Hcf. unfold same_events in Hcf.
  destruct (can_fetch E self url w) as [[allowed|e] w1]; cbn [snd] in Hcf.
  - destruct allowed; cbn [negb].
    + unfold bind. pose proof (fetch_js_page_loads E self url u w1) as Hn.
      destruct (fetch_js_page E self url w1) as [[html|e] w2]; cbn [snd] in *.
      * destruct (not_html html); unfold ret, lift; cbn [snd]; rewrite <- Hcf; exact Hn.
      * rewrite <- Hcf; exact Hn.
    + unfold ret. cbn [snd]. rewrite Hcf. lia.
  - cbn [snd]. rewrite Hcf. lia.
Qed.

(** X8: with script rendering on, a batch never calls [requests.get],
    never sleeps and never writes a timestamp: the browser path has no
    retry, no backoff and no rate limit. It loads a URL at most as many
    times as the batch lists it, so at most once when it is listed once,
    and never when it is not listed. *)
Theorem browser_path_no_retry_no_rate_limit (E : Env) (self : WebScraper)
    (urls : list string) (w : world) :
  enable_js self = true ->
  let w' := (scrape_multiple_pages E self urls w).2 in
  List.filter is_static_fetch_step (trace w') = List.filter is_static_fetch_step (trace w)
  /\ last_request_time w' = last_request_time w
  /\ (length (List.filter is_browser_load (trace w'))
      <= length (List.filter is_browser_load (trace w)) + length urls)%nat
  /\ (forall u,
        (length (List.filter (is_load_of u) (trace w'))
         <= length (List.filter (is_load_of u) (trace w))
            + length (List.filter (String.eqb u) urls))%nat).
Proof.
  intros Hjs. cbv zeta. unfold scrape_multiple_pages.
  generalize (∅ : gmap string ScrapedPage).
  revert w. induction urls as [|url urls IH]; intros w results.
  - cbn [scrape_multiple_pages_loop ret snd length List.filter].
    split; [reflexivity|]. split; [reflexivity|]. split; [lia|]. intros u. lia.
  - rewrite scrape_multiple_pages_loop_cons.
    set (w0 := (log Info url w).2).
    assert (H0 : List.filter is_static_fetch_step (trace w0)
                 = List.filter is_static_fetch_step (trace w)
                 /\ last_request_time w0 = last_request_time w
                 /\ List.filter is_browser_load (trace w0)
                    = List.filter is_browser_load (trace w)
                 /\ forall u, List.filter (is_load_of u) (trace w0)
                              = List.filter (is_load_of u) (trace w)) by (repeat split).
    destruct H0 as [Ha [Hb [Hc Hd]]].
    pose proof (static_steps_scrape_page E self url Hjs w0) as Hs.
    pose proof (quiet_scrape_page_js E self url Hjs w0) as [Hl _].
    pose proof (scrape_page_js_one_load E self url w0 Hjs) as Hn.
    pose proof (fun u => scrape_page_js_loads E self url u w0 Hjs) as Hu.
    unfold same_events in Hs.
    assert (Hcount : forall u,
               length (List.filter (String.eqb u) (url :: urls))
               = ((if String.eqb u url then 1 else 0)
                  + length (List.filter (String.eqb u) urls))%nat).
    { intros u. cbn [List.filter]. destruct (String.eqb u url); reflexivity. }
    destruct (scrape_page E self url w0) as [[page|e] w1]; cbn [snd] in *.
    + destruct (IH w1 (<[url := page]> results)) as [H1 [H2 [H3 H4]]].
      split; [rewrite H1, Hs, Ha; reflexivity|].
      split; [rewrite H2, Hl, Hb; reflexivity|].
      split; [rewrite Hc in Hn; cbn [length]; lia|].
      intros u. specialize (H4 u). specialize (Hu u). rewrite Hd in Hu.
      rewrite Hcount. lia.
    + split; [rewrite Hs, Ha; reflexivity|].
      split; [rewrite Hl, Hb; reflexivity|].
      split; [rewrite Hc in Hn; cbn [length]; lia|].
      intros u. specialize (Hu u). rewrite Hd in Hu. rewrite Hcount. lia.
Qed.

(** ** [scrape_multiple_pages] *)

Set Warnings "-clear-no-such-hyp".

Lemma scrape_multiple_pages_loop_app E self urls1 urls2 results w results1 w1 :
  scrape_multiple_pages_loop E self urls1 results w = (Ok results1, w1) ->
  scrape_multiple_pages_loop E self (urls1 ++ urls2) results w
  = scrape_multiple_pages_loop E self urls2 results1 w1.
Proof.
  revert results w. induction urls1 as [|u urls1 IH]; intros results w.
  - cbn [scrape_multiple_pages_loop]. unfold ret. intros [= <- <-]. reflexivity.
  - rewrite <- app_comm_cons, !scrape_multiple_pages_loop_cons.
    destruct (scrape_page E self u (log Info u w).2) as [[page|e] wa];
      [apply IH | discriminate].
Qed.

(** X9: [scrape_multiple_pages] has no handler: when [scrape_page] raises
    on one URL, the batch raises the same exception at once. The results
    gathered before are lost and the URLs that follow are not looked at:
    the world it leaves is the one in which the exception was raised. *)
Theorem scrape_multiple_pages_aborts (E : Env) (self : WebScraper)
    (pre post : list string) (url : string) (w w1 w2 : world)
    (results1 : gmap string ScrapedPage) (e : exn) :
  scrape_multiple_pages E self pre w = (Ok results1, w1) ->
  scrape_page E self url (log Info url w1).2 = (Raise e, w2) ->
  scrape_multiple_pages E self (pre ++ url :: post) w = (Raise e, w2).
Proof.
  unfold scrape_multiple_pages. intros Hpre Hraise.
  rewrite (scrape_multiple_pages_loop_app _ _ _ _ _ _ _ _ Hpre).
  rewrite scrape_multiple_pages_loop_cons, Hraise. reflexivity.
Qed.

Lemma scrape_multiple_pages_loop_entries E self urls results w results' w' :
  scrape_multiple_pages_loop E self urls results w = (Ok results', w') ->
  dom results' = list_to_set urls ∪ dom results
  /\ forall url page,
      results' !! url = Some page ->
      results !! url = Some page
      \/ (url ∈ urls /\ exists wa wb, scrape_page E self url wa = (Ok page, wb)).
Proof.
  revert results w. induction urls as [|u urls IH]; intros results w.
  - cbn [scrape_multiple_pages_loop]. unfold ret. intros [= <- <-]. split.
    + set_solver.
    + intros url page H. left. exact H.
  - rewrite scrape_multiple_pages_loop_cons.
    destruct (scrape_page E self u (log Info u w).2) as [[page|e] wa] eqn:Hp;
      [|discriminate].
    intros Hrun. destruct (IH _ _ Hrun) as [Hdom Hent]. split.
    + rewrite Hdom, dom_insert_L. set_solver.
    + intros url page' H. destruct (Hent url page' H) as [Hin|[Hin Hex]].
      * destruct (decide (u = url)) as [<-|Hne].
        -- rewrite lookup_insert_eq in Hin. injection Hin as <-.
           right. split; [apply elem_of_cons; left; reflexivity | eauto].
        -- rewrite lookup_insert_ne in Hin by exact Hne. left. exact Hin.
      * right. split; [apply elem_of_cons; right; exact Hin | exact Hex].
Qed.

(** X10: when no page raises, the mapping [scrape_multiple_pages] returns
    has exactly the given URLs as keys (a URL given twice has one entry),
    and every entry is a page that [scrape_page] returned for its key. *)
Theorem scrape_multiple_pages_entries (E : Env) (self : WebScraper)
    (urls : list string) (w w' : world) (results : gmap string ScrapedPage) :
  scrape_multiple_pages E self urls w = (Ok results, w') ->
  dom results = list_to_set urls
  /\ (size results <= length urls)%nat
  /\ forall url page,
      results !! url = Some page ->
      url ∈ urls /\ exists wa wb, scrape_page E self url wa = (Ok page, wb).
Proof.
  intros Hrun. destruct (scrape_multiple_pages_loop_entries _ _ _ _ _ _ _ Hrun)
    as [Hdom Hent].
  assert (Hd : dom results = list_to_set urls) by (rewrite Hdom; set_solver).
  split; [exact Hd|]. split.
  - rewrite <- size_dom, Hd. exact (list_set_length urls).
  - intros url page H. destruct (Hent url page H) as [Hin|Hin]; [|exact Hin].
    rewrite lookup_empty in Hin. discriminate.
Qed.

(** ** Extraction: the cleaned document *)

(** Induction on a document: a property of every child gives the
    property of the tag. *)
Lemma node_induction (P : Dom.node -> Prop) :
  (forall s, P (Dom.Text s)) ->
  (forall nm a kids, Forall P kids -> P (Dom.Elem nm a kids)) ->
  forall n, P n.
Proof.
  intros HT HE. fix IH 1. intros [s|nm a kids]; [apply HT|].
  apply HE. revert kids. fix IHk 1. intros [|k kids].
  - constructor.
  - constructor; [apply IH | apply IHk].
Qed.

Lemma descendants_elem nm a kids :
  Dom.descendants (Dom.Elem nm a kids)
  = flat_map (fun k => k :: Dom.descendants k) kids.
Proof.
  cbn [Dom.descendants]. induction kids as [|k kids IH]; [reflexivity|].
  cbn [flat_map]. rewrite <- IH. reflexivity.
Qed.

Lemma decompose_elem names nm a kids :
  Dom.decompose names (Dom.Elem nm a kids)
  = Dom.Elem nm a
      (omap (fun k => if Dom.has_name_in names k then None
                      else Some (Dom.decompose names k)) kids).
Proof.
  cbn [Dom.decompose]. f_equal. induction kids as [|k kids IH]; [reflexivity|].
  cbn [omap list_omap]. rewrite IH. destruct (Dom.has_name_in names k); reflexivity.
Qed.

Lemma has_name_in_decompose names names' n :
  Dom.has_name_in names' (Dom.decompose names n) = Dom.has_name_in names' n.
Proof. destruct n; reflexivity. Qed.

Lemma elem_of_descendants_elem d nm a kids :
  d ∈ Dom.descendants (Dom.Elem nm a kids)
  <-> exists k, k ∈ kids /\ (d = k \/ d ∈ Dom.descendants k).
Proof.
  rewrite descendants_elem. rewrite list_elem_of_In, in_flat_map. split.
  - intros [k [Hk Hd]]. exists k. split; [apply list_elem_of_In; exact Hk|].
    destruct Hd as [->|Hd]; [left; reflexivity | right; apply list_elem_of_In; exact Hd].
  - intros [k [Hk Hd]]. exists k. split; [apply list_elem_of_In; exact Hk|].
    destruct Hd as [->|Hd]; [left; reflexivity | right; apply list_elem_of_In; exact Hd].
Qed.

(** After [decompose], no tag of the tree bears a removed name. *)
Lemma decompose_removes names n d :
  d ∈ Dom.descendants (Dom.decompose names n) -> Dom.has_name_in names d = false.
Proof.
  revert d. induction n as [s|nm a kids IH] using node_induction; intros d.
  - intros H. inversion H.
  - rewrite decompose_elem, elem_of_descendants_elem.
    intros [k' [Hk' Hd]]. apply list_elem_of_omap in Hk' as [k [Hk Hkeep]].
    destruct (Dom.has_name_in names k) eqn:Hname; [discriminate|].
    injection Hkeep as <-. destruct Hd as [->|Hd].
    + rewrite has_name_in_decompose. exact Hname.
    + rewrite Forall_forall in IH. apply (IH k); [exact Hk | exact Hd].
Qed.

Lemma descendants_trans n m d :
  m ∈ Dom.descendants n -> d ∈ Dom.descendants m -> d ∈ Dom.descendants n.
Proof.
  revert m d. induction n as [s|nm a kids IH] using node_induction; intros m d.
  - intros H. inversion H.
  - rewrite !elem_of_descendants_elem. intros [k [Hk Hm]] Hd.
    exists k. split; [exact Hk|]. right. destruct Hm as [->|Hm]; [exact Hd|].
    rewrite Forall_forall in IH. apply (IH k) with (m := m); [exact Hk | exact Hm | exact Hd].
Qed.

Lemma find_descendant nm n m : Dom.find nm n = Some m -> m ∈ Dom.descendants n.
Proof.
  unfold Dom.find, Dom.find_all. intros H. apply head_Some_elem_of in H.
  apply list_elem_of_In, filter_In in H as [H _]. apply list_elem_of_In. exact H.
Qed.

Lemma main_content_descendant soup :
  main_content soup = soup \/ main_content soup ∈ Dom.descendants soup.
Proof.
  unfold main_content.
  destruct (Dom.find "main" soup) eqn:H1; [right; eapply find_descendant; eauto|].
  destruct (Dom.find "article" soup) eqn:H2; [right; eapply find_descendant; eauto|].
  destruct (Dom.find "section" soup) eqn:H3; [right; eapply find_descendant; eauto|].
  destruct (Dom.find "div" soup) eqn:H4; [right; eapply find_descendant; eauto|].
  left. reflexivity.
Qed.

(** X6: what [extract_content] reads has no boilerplate in it. After the
    [decompose] loop no tag of the document is a [script], [style], [nav],
    [footer] or [header]; the paragraphs that make the content and the
    anchors that make the links are tags of that cleaned document, so
    none of them is such a tag or sits inside one. *)
Theorem extract_content_ignores_boilerplate (E : Env) (html : string) :
  let soup := cleaned_soup E html in
  let boilerplate := ["script"; "style"; "nav"; "footer"; "header"] in
  (forall d, d ∈ Dom.descendants soup -> Dom.has_name_in boilerplate d = false)
  /\ (forall p, p ∈ Dom.find_all "p" (main_content soup) ->
                p ∈ Dom.descendants soup /\ Dom.has_name_in boilerplate p = false)
  /\ (forall a, a ∈ Dom.find_all_with_attr "a" "href" soup ->
                a ∈ Dom.descendants soup /\ Dom.has_name_in boilerplate a = false).
Proof.
  intros soup boilerplate.
  assert (H1 : forall d, d ∈ Dom.descendants soup -> Dom.has_name_in boilerplate d = false).
  { intros d. apply decompose_removes. }
  split; [exact H1|]. split.
  - intros p Hp.
    assert (Hd : p ∈ Dom.descendants soup).
    { unfold Dom.find_all in Hp. apply list_elem_of_In, filter_In in Hp as [Hp _].
      apply list_elem_of_In in Hp.
      destruct (main_content_descendant soup) as [Heq|Hin].
      - rewrite Heq in Hp. exact Hp.
      - exact (descendants_trans _ _ _ Hin Hp). }
    split; [exact Hd | exact (H1 _ Hd)].
  - intros a Ha.
    assert (Hd : a ∈ Dom.descendants soup).
    { unfold Dom.find_all_with_attr in Ha.
      apply list_elem_of_In, filter_In in Ha as [Ha _]. apply list_elem_of_In. exact Ha. }
    split; [exact Hd | exact (H1 _ Hd)].
Qed.

(** ** Extraction: the page returned *)

Lemma summarize_text_length (text : string) :
  (String.length (summarize_text text) <= String.length text + 1)%nat.
Proof.
  unfold summarize_text. set (sentences := PyStr.split_on ". " text).
  destruct (Nat.ltb_spec 3 (length sentences)) as [Hlt|Hge]; [|lia].
  assert (Hjoin : PyStr.join ". " sentences = text) by (apply join_split_on; discriminate).
  assert (Hcut : text = (PyStr.join ". " (take 3 sentences) ++ ". "
                         ++ PyStr.join ". " (drop 3 sentences))%string).
  { rewrite <- Hjoin at 1. rewrite <- (take_drop 3 sentences) at 1.
    apply join_app.
    - destruct sentences; [simpl in Hlt; lia | discriminate].
    - destruct sentences as [|s1 [|s2 [|s3 [|s4 l]]]]; simpl in Hlt; try lia.
      discriminate. }
  pose proof (f_equal String.length Hcut) as Hlen.
  rewrite !append_length in Hlen. rewrite append_length.
  cbn [String.length] in *. lia.
Qed.

(** X4: a page that [extract_content] returns always has a description
    and keywords, its content is never empty, and its content has at
    most 2401 characters: the text is cut to 2400, and the summary of a
    text whose fourth sentence is empty is one character longer than the
    text. *)
Theorem extract_content_page_shape (E : Env) (self : WebScraper)
    (html url : string) (page : ScrapedPage) :
  extract_content E self html url = Ok page ->
  content page <> ""
  /\ (String.length (content page) <= 2401)%nat
  /\ (exists d, page_description page = Some d)
  /\ (exists k, page_keywords page = Some k).
Proof.
  intros Hx. pose proof (extract_content_content _ _ _ _ _ Hx) as Hc. cbv zeta in Hc.
  pose proof (take_length 2400
                (PyStr.join " "
                   (map (fun p => PyStr.strip (Dom.get_text p))
                      (Dom.find_all "p" (main_content (cleaned_soup E html)))))) as Ht.
  fold (paragraph_text (cleaned_soup E html)) in Ht.
  set (text := paragraph_text (cleaned_soup E html)) in *.
  pose proof (summarize_text_length text) as Hs.
  split; [|split].
  - rewrite Hc. case_decide as He; [discriminate | exact He].
  - rewrite Hc. case_decide as He; [simpl; lia|].
    destruct (summarize_content self && (100 <? PyStr.word_count text)); lia.
  - destruct (extract_content_ok _ _ _ _ _ Hx) as (m & r & _ & _ & Hd & Hk & _).
    split; eexists; eassumption.
Qed.

(** The metadata cannot be read exactly when the first [meta] named
    [description], or the first one named [keywords], has no [content];
    what is raised then is the [KeyError] of that attribute. *)
Lemma extract_metadata_cases soup :
  let lacks nm := exists m, Dom.find_by_attr "meta" "name" nm soup = Some m
                            /\ Dom.attr "content" m = None in
  match extract_metadata soup with
  | Ok _ => ~ (lacks "description" \/ lacks "keywords")
  | Raise e => e = KeyError "content" /\ (lacks "description" \/ lacks "keywords")
  end.
Proof.
  intros lacks. unfold extract_metadata, meta_content.
  destruct (Dom.find_by_attr "meta" "name" "description" soup) as [md|] eqn:Hd;
    [destruct (Dom.attr "content" md) as [cd|] eqn:Hcd|];
    (destruct (Dom.find_by_attr "meta" "name" "keywords" soup) as [mk|] eqn:Hk;
      [destruct (Dom.attr "content" mk) as [ck|] eqn:Hck|]);
    try (split; [reflexivity|]);
    try (left; exists md; split; [exact Hd | exact Hcd]);
    try (right; exists mk; split; [exact Hk | exact Hck]);
    intros [[m [Hm Ha]]|[m [Hm Ha]]];
    rewrite ?Hd, ?Hk in Hm; try discriminate Hm;
    injection Hm as <-; congruence.
Qed.

(** X5: [extract_content] reads the metadata before it resolves the
    links. When the first [meta] named [description], or the first one
    named [keywords], has no [content] attribute, it raises the
    [KeyError] of that attribute. Whatever it raises is that [KeyError],
    or the [ValueError] of [urljoin] on the [href] of an anchor of the
    cleaned document. When neither can happen it returns a page. *)
Theorem extract_content_key_error (E : Env) (self : WebScraper) (html url : string) :
  let soup := cleaned_soup E html in
  let lacks nm := exists m, Dom.find_by_attr "meta" "name" nm soup = Some m
                            /\ Dom.attr "content" m = None in
  let anchors := Dom.find_all_with_attr "a" "href" soup in
  (lacks "description" \/ lacks "keywords" ->
   extract_content E self html url = Raise (KeyError "content"))
  /\ (forall e, extract_content E self html url = Raise e ->
        (e = KeyError "content" /\ (lacks "description" \/ lacks "keywords"))
        \/ exists a href msg,
            a ∈ anchors /\ Dom.attr "href" a = Some href
            /\ urljoin E url href = Invalid msg /\ e = ValueError msg)
  /\ (~ (lacks "description" \/ lacks "keywords") ->
      (forall a href, a ∈ anchors -> Dom.attr "href" a = Some href ->
                      exists l, urljoin E url href = Valid l) ->
      exists page, extract_content E self html url = Ok page).
Proof.
  intros soup lacks anchors.
  pose proof (extract_metadata_cases soup) as Hm. cbv zeta in Hm. fold lacks in Hm.
  pose proof (urljoin_all_spec E url (omap (Dom.attr "href") anchors)) as Hl.
  unfold extract_content, resolved_links. fold soup. fold anchors.
  destruct (extract_metadata soup) as [metadata|e0].
  - destruct (urljoin_all E url (omap (Dom.attr "href") anchors)) as [resolved|e1].
    + split; [intros H; contradiction|]. split; [intros e He; discriminate He|].
      intros _ _. eexists. reflexivity.
    + destruct Hl as (href & msg & Hin & Hj & ->).
      apply list_elem_of_omap in Hin as (a & Ha & Hattr).
      split; [intros H; contradiction|]. split.
      * intros e [= <-]. right. exists a, href, msg. repeat split; assumption.
      * intros _ Hall. destruct (Hall a href Ha Hattr) as [l Hok]. congruence.
  - destruct Hm as [-> Hlacks]. split; [reflexivity|]. split.
    + intros e [= <-]. left. split; [reflexivity | exact Hlacks].
    + intros Hno. contradiction.
Qed.

(** ** The assembling loop as a function *)


(** ** [SearchModule.search] *)


(** ** The cache across calls *)








(** ** [SearchModule._filter_results] *)

Lemma filter_sublist {A} (f : A -> bool) (l : list A) : sublist (List.filter f l) l.
Proof.
  induction l as [|x l IH]; [constructor|].
  cbn [List.filter]. destruct (f x); [apply sublist_skip | apply sublist_cons]; exact IH.
Qed.

(** X11: [_filter_results] keeps the provider's order and drops results
    only. Without keywords ([None] or an empty list on both sides) it
    drops nothing. A result is kept exactly when some include keyword
    occurs in its lowered title or body (if there are include keywords)
    and no exclude keyword does: a match of an exclude keyword drops the
    result whatever the include keywords say. *)
Theorem filter_results_keeps (E : Env) (results : list (gmap string string))
    (inc exc : option (list string)) :
  let lowered key r := str_lower E (default "" (r !! key)) in
  sublist (_filter_results E results inc exc) results
  /\ _filter_results E results None None = results
  /\ _filter_results E results (Some []) (Some []) = results
  /\ (forall r,
        r ∈ _filter_results E results inc exc <->
        r ∈ results
        /\ (truthy inc = true ->
            any_keyword E (default [] inc) (lowered "title" r) (lowered "body" r) = true)
        /\ (truthy exc = true ->
            any_keyword E (default [] exc) (lowered "title" r) (lowered "body" r) = false)).
Proof.
  intros lowered. split; [apply filter_sublist|]. split; [|split].
  - unfold _filter_results. cbn [truthy andb].
    induction results as [|r l IH]; [reflexivity|]. cbn [List.filter]. f_equal. exact IH.
  - unfold _filter_results. cbn [truthy andb].
    induction results as [|r l IH]; [reflexivity|]. cbn [List.filter]. f_equal. exact IH.
  - intros r. unfold _filter_results. rewrite list_elem_of_In, filter_In, <- list_elem_of_In.
    fold (lowered "title" r). fold (lowered "body" r).
    destruct (truthy inc); destruct (truthy exc); cbn [andb];
      destruct (any_keyword E (default [] inc) (lowered "title" r) (lowered "body" r));
      destruct (any_keyword E (default [] exc) (lowered "title" r) (lowered "body" r));
      cbn [negb]; intuition congruence.
Qed.

(** ** A failed fetch in the combined record *)

Lemma has_space_append (a b : string) :
  has_space (a ++ b)%string = has_space a || has_space b.
Proof.
  induction a as [|c a IH]; [reflexivity|].
  rewrite append_cons. cbn [has_space]. rewrite IH. apply orb_assoc.
Qed.

(** A string without whitespace is one word, or none when it is empty. *)
Lemma split_ws_go_no_space (s cur : string) :
  has_space s = false ->
  PyStr.split_ws_go cur s
  = if decide (cur = "" /\ s = "") then [] else [(PyStr.rev cur ++ s)%string].
Proof.
  revert cur. induction s as [|c s IH]; intros cur Hs.
  - cbn [PyStr.split_ws_go]. rewrite append_empty_r.
    destruct cur as [|c cur].
    + destruct (decide ("" = "" /\ "" = "")) as [_|H]; [reflexivity|].
      exfalso. apply H. split; reflexivity.
    + destruct (decide (String c cur = "" /\ "" = "")) as [[H _]|_];
        [discriminate | reflexivity].
  - cbn [has_space] in Hs. apply orb_false_iff in Hs as [Hc Hs].
    cbn [PyStr.split_ws_go]. rewrite Hc, (IH _ Hs).
    destruct (decide (String c cur = "" /\ s = "")) as [[H1 _]|_]; [discriminate|].
    destruct (decide (cur = "" /\ String c s = "")) as [[_ H2]|_]; [discriminate|].
    rewrite rev_cons, append_assoc. reflexivity.
Qed.

(** A string without whitespace contains no string with whitespace. *)
Lemma contains_no_space (sub s : string) :
  has_space sub = true -> has_space s = false -> PyStr.contains sub s = false.
Proof.
  intros Hsub Hs. destruct (PyStr.contains sub s) eqn:Hc; [|reflexivity].
  apply contains_spec in Hc as [pre [post ->]].
  rewrite !has_space_append, Hsub, orb_true_r in Hs. discriminate.
Qed.

(** X15: a failed fetch is counted as content. For a URL that is not
    empty and has no whitespace, the record combined from the
    failed-to-fetch page carries ["Failed to fetch <url>"], is not taken
    as robots-restricted, and has [word_count] 4, not 0. *)
Theorem failed_fetch_counts_four_words (r : SearchResult) (url domain : string) :
  url <> "" ->
  has_space url = false ->
  let record := combined_record r (Some (failed_page url)) domain in
  scraped_content record = ("Failed to fetch " ++ url)%string
  /\ is_restricted (Some (failed_page url)) = false
  /\ word_count record = 4
  /\ scraped_links record = [].
Proof.
  intros Hne Hsp record.
  assert (Hr : is_restricted (Some (failed_page url)) = false).
  { unfold is_restricted, failed_page. cbn [content].
    rewrite !append_cons, append_empty. cbn [PyStr.contains PyStr.starts_with].
    simpl. apply contains_no_space; [reflexivity | exact Hsp]. }
  split; [reflexivity|]. split; [exact Hr|]. split; [|reflexivity].
  unfold record, combined_record. cbn [word_count]. rewrite Hr.
  unfold failed_page. cbn [content].
  assert (Hneq : String.eqb ("Failed to fetch " ++ url) "No content scraped." = false).
  { rewrite !append_cons. reflexivity. }
  rewrite Hneq. unfold PyStr.word_count, PyStr.split_ws.
  rewrite !append_cons, append_empty. simpl PyStr.split_ws_go.
  rewrite (split_ws_go_no_space url "" Hsp).
  case_decide as H; [destruct H as [_ H]; contradiction|]. reflexivity.
Qed.

(** ** The time a dead URL costs *)

Lemma fetch_page_loop_fail_clock E self url attempt remaining w parsed_url :
  urlparse E url = Valid parsed_url ->
  attempt_fails (http_get E (exchanges w) url).1 = true ->
  rate_limit_wait self (last_request_time w !! url_netloc E url) (clock w) = None ->
  exists w1,
    fetch_page_loop E self url attempt (S remaining) w
    = fetch_page_loop E self url (S attempt) remaining w1
    /\ clock w1 = clock w + Z.of_nat (http_get E (exchanges w) url).2 + 2 ^ Z.of_nat attempt
    /\ last_request_time w1 !! url_netloc E url = Some (clock w)
    /\ exchanges w1 = S (exchanges w).
Proof.
  intros Hp Hfail Hwait. apply attempt_fails_raise in Hfail as [e [Hresp He]].
  eexists. split; [|split; [|split]].
  - cbn [fetch_page_loop]. unfold try_except at 1, bind at 1.
    rewrite (fetch_attempt_run _ _ _ _ _ Hp), Hresp, He.
    unfold bind at 1, log, emit. unfold bind at 1, time_sleep, bind, emit, advance.
    reflexivity.
  - unfold after_request, after_rate_limit. cbn [clock exchanges]. rewrite Hwait.
    assert (0 < 2 ^ Z.of_nat attempt) by (apply Z.pow_pos_nonneg; lia). lia.
  - unfold after_request, after_rate_limit. cbn [last_request_time clock]. rewrite Hwait.
    rewrite lookup_insert_eq. f_equal. lia.
  - reflexivity.
Qed.

Lemma total_latency_S E url first n :
  total_latency E url first (S n)
  = Z.of_nat (http_get E first url).2 + total_latency E url (S first) n.
Proof. reflexivity. Qed.

(** X16: what a dead URL costs. On a URL that [urlparse] accepts, when
    every attempt fails, the rate limit is at most one second and the
    limiter has nothing to wait for at the start, [fetch_page] takes the
    latencies of its [max_retries] requests plus [2 ^ max_retries - 1]
    seconds of backoff (7 seconds with the default 3 retries): the
    backoff always covers the rate limit, so the limiter never adds a
    wait between the attempts. *)
Theorem fetch_page_dead_url_time (E : Env) (self : WebScraper) (url : string) (w : world)
    (parsed_url : ParseResult) :
  urlparse E url = Valid parsed_url ->
  0 <= max_retries self ->
  rate_limit self <= 1 ->
  rate_limit_wait self (last_request_time w !! netloc parsed_url) (clock w) = None ->
  (forall n, attempt_fails (http_get E n url).1 = true) ->
  clock (fetch_page E self url w).2
  = clock w
    + total_latency E url (exchanges w) (Z.to_nat (max_retries self))
    + (2 ^ max_retries self - 1).
Proof.
  intros Hp Hpos Hrl Hwait Hfail. unfold fetch_page.
  rewrite <- (url_netloc_ok _ _ _ Hp) in Hwait.
  assert (Hgen : forall n attempt w,
             rate_limit_wait self (last_request_time w !! url_netloc E url) (clock w) = None ->
             clock (fetch_page_loop E self url attempt n w).2
             = clock w + total_latency E url (exchanges w) n
               + 2 ^ Z.of_nat attempt * (2 ^ Z.of_nat n - 1)).
  { clear w Hwait. induction n as [|n IH]; intros attempt w Hwait.
    - cbn [fetch_page_loop]. unfold bind, log, emit, ret, total_latency. simpl. lia.
    - destruct (fetch_page_loop_fail_clock E self url attempt n w parsed_url Hp
                  (Hfail _) Hwait)
        as [w1 [Hstep [Hclock [Hlast Hex]]]].
      rewrite Hstep, IH.
      + rewrite Hclock, Hex, total_latency_S.
        rewrite !Nat2Z.inj_succ, !Z.pow_succ_r by lia. lia.
      + unfold rate_limit_wait. rewrite Hlast.
        assert (0 < 2 ^ Z.of_nat attempt) by (apply Z.pow_pos_nonneg; lia).
        destruct (Z.ltb_spec (clock w1 - clock w) (rate_limit self)) as [Hlt|_];
          [lia | reflexivity]. }
  rewrite (Hgen _ 0%nat w Hwait). rewrite Z2Nat.id by exact Hpos.
  change (Z.of_nat 0) with 0. rewrite Z.pow_0_r. lia.
Qed.

(** ** The wait of the rate limiter *)

(** X17: on a URL that [urlparse] accepts, when the timestamp of the
    domain is not ahead of the clock, [respect_rate_limit] returns at the
    later of now and the timestamp plus [rate_limit]: it never blocks for
    more than [rate_limit] seconds, and not at all when that much time has
    already passed. *)
Theorem respect_rate_limit_returns_at (E : Env) (self : WebScraper) (url : string)
    (w : world) (ts : Z) (parsed_url : ParseResult) :
  urlparse E url = Valid parsed_url ->
  last_request_time w !! netloc parsed_url = Some ts ->
  ts <= clock w ->
  let w' := (respect_rate_limit E self url w).2 in
  clock w' = Z.max (clock w) (ts + rate_limit self)
  /\ clock w' - clock w <= Z.max 0 (rate_limit self)
  /\ (rate_limit self <= clock w - ts ->
      clock w' = clock w
      /\ trace w' = EStamp (netloc parsed_url) (clock w) :: trace w).
Proof.
  intros Hp Hts Hle. cbv zeta. rewrite (respect_rate_limit_run _ _ _ _ _ Hp). cbn [snd].
  unfold after_rate_limit, rate_limit_wait. rewrite (url_netloc_ok _ _ _ Hp), Hts.
  cbn [clock trace].
  destruct (Z.ltb_spec (clock w - ts) (rate_limit self)) as [Hlt|Hge].
  - split; [lia|]. split; [lia|]. intros H. lia.
  - split; [lia|]. split; [lia|]. intros _. rewrite Z.add_0_r.
    split; reflexivity.
Qed.

(** ** The further properties on examples *)

(** X1 on a network that times out twice and then answers. *)
Lemma fetch_page_first_success_witness :
  let E := Example.env (Cases.net_flaky 2 Example.html_long) Example.robots_allow
             (Example.br_ok "") (Ok []) in
  let url := "http://e.com/page" in
  exists w',
    fetch_page E Example.scraper url (new_world 0) = (Ok (Some Example.html_long), w')
    /\ omap fetch_shape (rev (trace w'))
       = [SStamp "e.com"; SGet url; SBackoff 1;
          SStamp "e.com"; SGet url; SBackoff 2;
          SStamp "e.com"; SGet url]
    /\ exchanges w' = 3%nat.
Proof.
  intros E url.
  destruct (fetch_page_first_success E Example.scraper url (new_world 0) 2
              {| scheme := "http"; netloc := "e.com" |})
    as [new [w' [Hrun [Htr [Hsh Hex]]]]].
  - reflexivity.
  - simpl. lia.
  - intros i Hi. destruct i as [|[|i]]; [reflexivity | reflexivity | lia].
  - reflexivity.
  - exists w'. split; [exact Hrun|]. split; [|exact Hex].
    rewrite Htr. simpl. rewrite app_nil_r. rewrite Hsh. reflexivity.
Defined.

(** X4 on the long page. *)
Lemma extract_content_page_shape_witness :
  let E := Example.env (Example.net_ok Example.html_long) Example.robots_allow
             (Example.br_ok "") (Ok []) in
  exists page,
    extract_content E Example.scraper Example.html_long "http://e.com/" = Ok page
    /\ content page <> ""
    /\ (String.length (content page) <= 2401)%nat.
Proof.
  intros E. eexists. split; [vm_compute; reflexivity|].
  match goal with
  | |- content ?p <> _ /\ _ =>
      pose proof (extract_content_page_shape E Example.scraper Example.html_long
                    "http://e.com/" p ltac:(vm_compute; reflexivity)) as [H1 [H2 _]]
  end.
  split; [exact H1 | exact H2].
Defined.

(** X8 on two pages of one site, loaded in the browser. *)
Lemma browser_path_no_retry_no_rate_limit_witness :
  let E := Example.env Example.net_down Example.robots_allow
             (Example.br_ok Example.html_long) (Ok []) in
  let w' := (scrape_multiple_pages E Example.scraper_js
               ["http://e.com/a"; "http://e.com/b"] (new_world 0)).2 in
  enable_js Example.scraper_js = true
  /\ List.filter is_static_fetch_step (trace w') = []
  /\ last_request_time w' = ∅
  /\ (length (List.filter is_browser_load (trace w')) <= 2)%nat
  /\ (length (List.filter (is_load_of "http://e.com/a") (trace w')) <= 1)%nat
  /\ (length (List.filter (is_load_of "http://e.com/c") (trace w')) <= 0)%nat.
Proof.
  intros E w'.
  pose proof (browser_path_no_retry_no_rate_limit E Example.scraper_js
                ["http://e.com/a"; "http://e.com/b"] (new_world 0) eq_refl)
    as [H1 [H2 [H3 H4]]].
  split; [reflexivity|]. split; [exact H1|]. split; [exact H2|]. split; [exact H3|].
  split; [exact (H4 "http://e.com/a") | exact (H4 "http://e.com/c")].
Defined.

(** X9 on three pages whose second breaks the HTTP client. *)
Lemma scrape_multiple_pages_aborts_witness :
  let E := Example.env (Example.net_one_bad "http://e.com/bad" Example.html_long)
             Example.robots_allow (Example.br_ok "") (Ok []) in
  let run := scrape_multiple_pages E Example.scraper
               ["http://e.com/a"; "http://e.com/bad"; "http://e.com/c"] (new_world 0) in
  run.1 = Raise (OtherException "boom")
  /\ ELog Info "http://e.com/bad" ∈ trace run.2
  /\ ~ ELog Info "http://e.com/c" ∈ trace run.2.
Proof.
  intros E run.
  pose (pre := scrape_multiple_pages E Example.scraper ["http://e.com/a"] (new_world 0)).
  pose (bad := scrape_page E Example.scraper "http://e.com/bad"
                 (log Info "http://e.com/bad" pre.2).2).
  assert (Hrun : run = (Raise (OtherException "boom"), bad.2)).
  { apply (scrape_multiple_pages_aborts E Example.scraper ["http://e.com/a"]
             ["http://e.com/c"] "http://e.com/bad" (new_world 0) pre.2 bad.2
             (default ∅ (match pre.1 with Ok d => Some d | Raise _ => None end))).
    - vm_compute. reflexivity.
    - vm_compute. reflexivity. }
  rewrite Hrun. split; [reflexivity|]. split.
  - apply list_elem_of_In. vm_compute.
    repeat (first [left; reflexivity | right]).
  - intros Hlog. apply list_elem_of_In in Hlog. vm_compute in Hlog.
    repeat (destruct Hlog as [Hlog|Hlog]; [discriminate Hlog|]). exact Hlog.
Defined.

(** X10 on a batch that names one page twice. *)
Lemma scrape_multiple_pages_entries_witness :
  let E := Example.env (Example.net_ok Example.html_long) Example.robots_allow
             (Example.br_ok "") (Ok []) in
  exists results w',
    scrape_multiple_pages E Example.scraper
      ["http://e.com/a"; "http://e.com/a"; "http://e.com/c"] (new_world 0)
    = (Ok results, w')
    /\ dom results = list_to_set ["http://e.com/a"; "http://e.com/a"; "http://e.com/c"]
    /\ size results = 2%nat.
Proof.
  intros E.
  pose (run := scrape_multiple_pages E Example.scraper
                 ["http://e.com/a"; "http://e.com/a"; "http://e.com/c"] (new_world 0)).
  assert (Hrun : run = (Ok (default ∅ (match run.1 with Ok d => Some d | Raise _ => None end)),
                        run.2)) by (vm_compute; reflexivity).
  destruct (scrape_multiple_pages_entries E Example.scraper _ _ _ _ Hrun) as [Hdom _].
  eexists _, _. split; [exact Hrun|]. split; [exact Hdom|].
  vm_compute. reflexivity.
Defined.



(** X15 on a page that could not be fetched. *)
Lemma failed_fetch_counts_four_words_witness :
  let E := Example.env Example.net_down Example.robots_allow (Example.br_ok "") (Ok []) in
  let r := Example.res "A" "http://e.com/a" "first" in
  (scrape_page E Example.scraper "http://e.com/a" (new_world 0)).1
  = Ok (failed_page "http://e.com/a")
  /\ word_count (combined_record r (Some (failed_page "http://e.com/a")) "e.com") = 4.
Proof.
  intros E r. split; [vm_compute; reflexivity|].
  apply (failed_fetch_counts_four_words r "http://e.com/a" "e.com");
    [discriminate | reflexivity].
Defined.

(** X16 with the default 3 retries and requests that time out after two
    seconds: 6 seconds of requests and 7 of backoff. *)
Lemma fetch_page_dead_url_time_witness :
  let E := Example.env Cases.net_timeout Example.robots_allow (Example.br_ok "") (Ok []) in
  clock (fetch_page E Example.scraper "http://e.com/a" (new_world 0)).2 = 13.
Proof.
  intros E.
  rewrite (fetch_page_dead_url_time E Example.scraper "http://e.com/a" (new_world 0)
             {| scheme := "http"; netloc := "e.com" |}).
  - reflexivity.
  - reflexivity.
  - simpl. lia.
  - simpl. lia.
  - reflexivity.
  - intros n. reflexivity.
Defined.

(** X17 on a site asked at second 10, with the limit of one second: at
    second 10 the call returns at second 11, at second 15 it returns at
    once. *)
Lemma respect_rate_limit_returns_at_witness :
  let E := Example.env Example.net_down Example.robots_allow (Example.br_ok "") (Ok []) in
  clock (respect_rate_limit E Example.scraper "http://e.com/a" (Cases.world_at 10)).2 = 11
  /\ clock (respect_rate_limit E Example.scraper "http://e.com/a" (Cases.world_at 15)).2 = 15.
Proof.
  intros E. split.
  - destruct (respect_rate_limit_returns_at E Example.scraper "http://e.com/a"
                (Cases.world_at 10) 10 {| scheme := "http"; netloc := "e.com" |}
                eq_refl eq_refl ltac:(simpl; lia)) as [H _].
    rewrite H. reflexivity.
  - destruct (respect_rate_limit_returns_at E Example.scraper "http://e.com/a"
                (Cases.world_at 15) 10 {| scheme := "http"; netloc := "e.com" |}
                eq_refl eq_refl ltac:(simpl; lia)) as [H _].
    rewrite H. reflexivity.
Defined.

(** The bound of 2401 characters is reached. *)
Example content_of_2401_characters :
  let E := Cases.env_of (Dom.document [Example.paragraph Cases.long_paragraph]) in
  exists page,
    extract_content E Example.scraper "" "http://e.com/" = Ok page
    /\ String.length (paragraph_text (cleaned_soup E "")) = 2400%nat
    /\ String.length (content page) = 2401%nat.
Proof.
  intros E. eexists. split; [vm_compute; reflexivity|].
  split; vm_compute; reflexivity.
Qed.
